(** * SunoSaathi: frame acquisition and landmark extraction

    A shallow embedding of the frontend pipeline that turns MediaPipe
    Holistic results into fixed-width keypoint vectors, buffers them per
    session and hands them to the recognition or persistence endpoints.

    JavaScript values are modelled as follows.
    - A JS number is a rational ([Q]).  Landmark coordinates are only
      copied, never computed on; the places that do arithmetic (the
      pseudo-random delay and confidence of [processDemoSign], the
      percentage [stopRecording] shows) are idealised to exact rational
      arithmetic, and [Math.random] is an oracle.
    - A property that may be [null]/[undefined] is an [option]; a JS
      array is a [list] (an array, even an empty one, is truthy).
    - A [useRef] cell or a closure variable is a field of an explicit
      state record; a React [useState] value captured by a closure is a
      function argument, since it is constant for the closure's life.
    - Calls to collaborators (engine, network, timers, log) are recorded
      in an effect trace, in program order. *)

From Stdlib Require Import String Ascii DecimalString.
From Stdlib Require Import List Bool Arith ZArith QArith Qabs Qround Lia Lqa.
Import ListNotations.

Close Scope Q_scope.
Set Implicit Arguments.

(* ================================================================== *)
(** ** Data model *)

Definition number := Q.

(** One MediaPipe landmark: [{x, y, z}]. *)
Record landmark := mkLandmark { lx : number; ly : number; lz : number }.

(** One entry of a keypoint vector: the JS array [[x, y, z]]. *)
Definition triple := (number * number * number)%type.

Definition zero3 : triple := (0%Q, 0%Q, 0%Q).

Definition triple_of (l : landmark) : triple := (lx l, ly l, lz l).

(** The engine's per-frame result object.  A group that was not detected
    is absent ([None]). *)
Record results := mkResults {
  poseLandmarks : option (list landmark);
  faceLandmarks : option (list landmark);
  leftHandLandmarks : option (list landmark);
  rightHandLandmarks : option (list landmark)
}.

(** [{frame_id, keypoints}] *)
Record frame := mkFrame { frame_id : nat; keypoints : list triple }.

(** Frame ids are the positions in the buffer. *)
Definition contiguous (fs : list frame) : Prop :=
  map frame_id fs = seq 0 (length fs).

(** Cardinalities MediaPipe Holistic delivers with the options every
    component sets ([refineFaceLandmarks: false]). *)
Definition POSE_POINTS : nat := 33.
Definition FACE_POINTS : nat := 468.
Definition HAND_POINTS : nat := 21.

(** [landmarks.forEach(lm => keypoints.push([lm.x, lm.y, lm.z]))] *)
Definition push_landmarks (kp : list triple) (lms : list landmark) : list triple :=
  fold_left (fun acc lm => acc ++ [triple_of lm]) lms kp.

(** [for (let i = 0; i < count; i++) keypoints.push([0, 0, 0])] *)
Fixpoint push_zeros (count : nat) (kp : list triple) : list triple :=
  match count with
  | O => kp
  | S n => push_zeros n (kp ++ [zero3])
  end.

(** The if/else block every extractor repeats per group (named
    [addPoints] in VideoProcessor, written inline elsewhere). *)
Definition addPoints (landmarks : option (list landmark)) (count : nat)
                     (kp : list triple) : list triple :=
  match landmarks with
  | Some lms => push_landmarks kp lms
  | None => push_zeros count kp
  end.

(** What one group contributes, as a value. *)
Definition group_points (count : nat) (g : option (list landmark)) : list triple :=
  match g with
  | Some lms => map triple_of lms
  | None => repeat zero3 count
  end.

(** A result object shaped as the engine delivers it: a detected group
    has its fixed cardinality. *)
Definition group_shaped (count : nat) (g : option (list landmark)) : Prop :=
  match g with
  | Some lms => length lms = count
  | None => True
  end.

Definition holistic_shaped (r : results) : Prop :=
  group_shaped POSE_POINTS (poseLandmarks r) /\
  group_shaped FACE_POINTS (faceLandmarks r) /\
  group_shaped HAND_POINTS (leftHandLandmarks r) /\
  group_shaped HAND_POINTS (rightHandLandmarks r).

(* ================================================================== *)
(** ** MediaPipeService (services/mediapipe.service.js) *)

Module MediaPipeService.

(** [extractKeypoints(results)]: pose, left hand, right hand, face. *)
Definition extractKeypoints (r : results) : list triple :=
  let keypoints := [] in
  let keypoints := addPoints (poseLandmarks r) 33 keypoints in
  let keypoints := addPoints (leftHandLandmarks r) 21 keypoints in
  let keypoints := addPoints (rightHandLandmarks r) 21 keypoints in
  let keypoints := addPoints (faceLandmarks r) 468 keypoints in
  keypoints.

(** *** The service object and its lifecycle *)

(** Holistic and Camera instances, named by the order of construction. *)
Definition handle := nat.

(** The fields of the service; [onResults] tells whether a callback is
    stored, [constructed] counts the instances made so far. *)
Record service := mkService {
  holistic : option handle;
  camera : option handle;
  onResults : bool;
  isInitialized : bool;
  constructed : nat
}.

(** [new MediaPipeService()] *)
Definition created : service := mkService None None false false 0.

Inductive effect :=
| HolisticNew (h : handle)
| HolisticClose (h : handle)
| HolisticSend (h : handle)
| CameraNew (c : handle)
| CameraStart (c : handle)
| CameraStop (c : handle)
| Callback (kp : list triple) (r : results).

(** Which constructor, if any, throws during [initialize]. *)
Inductive init_outcome :=
| InitCompletes
| HolisticThrows (message : string)
| CameraThrows (message : string).

Definition NOT_INITIALIZED : string := "MediaPipe not initialized".

(** [initialize(videoElement, onResultsCallback)]; the error, if any, is
    rethrown to the caller. *)
Definition initialize (o : init_outcome) (s : service)
  : service * list effect * option string :=
  match o with
  | HolisticThrows m =>
      (mkService (holistic s) (camera s) true (isInitialized s) (constructed s),
       [], Some m)
  | CameraThrows m =>
      (mkService (Some (constructed s)) (camera s) true (isInitialized s)
                 (S (constructed s)),
       [HolisticNew (constructed s)], Some m)
  | InitCompletes =>
      (mkService (Some (constructed s)) (Some (S (constructed s))) true true
                 (S (S (constructed s))),
       [HolisticNew (constructed s); CameraNew (S (constructed s))], None)
  end.

(** [handleResults(results)] *)
Definition handleResults (r : results) (s : service) : list effect :=
  if onResults s then [Callback (extractKeypoints r) r] else [].

(** The camera's [onFrame] *)
Definition onFrame (s : service) : list effect :=
  match holistic s with
  | Some h => [HolisticSend h]
  | None => []
  end.

(** [start()]; [thrown] is what [camera.start()] throws, if it does. *)
Definition start (thrown : option string) (s : service)
  : list effect * option string :=
  match camera s, isInitialized s with
  | Some c, true => ([CameraStart c], thrown)
  | _, _ => ([], Some NOT_INITIALIZED)
  end.

(** [stop()] *)
Definition stop (s : service) : list effect :=
  match camera s with
  | Some c => [CameraStop c]
  | None => []
  end.

(** [cleanup()] *)
Definition cleanup (s : service) : service * list effect :=
  (mkService None None (onResults s) false (constructed s),
   stop s ++ match holistic s with Some h => [HolisticClose h] | None => [] end).

(** The calls a user of the service can make, and the frames and
    results the camera and the engine deliver to it. *)
Inductive call :=
| Initialize (o : init_outcome)
| Start (thrown : option string)
| Stop
| Cleanup
| HandleResults (r : results)
| OnFrame.

Definition perform (c : call) (s : service) : service * list effect :=
  match c with
  | Initialize o => fst (initialize o s)
  | Start thrown => (s, fst (start thrown s))
  | Stop => (s, stop s)
  | Cleanup => cleanup s
  | HandleResults r => (s, handleResults r s)
  | OnFrame => (s, onFrame s)
  end.

Fixpoint perform_all (cs : list call) (s : service) : service * list effect :=
  match cs with
  | [] => (s, [])
  | c :: rest =>
      let '(s1, e1) := perform c s in
      let '(s2, e2) := perform_all rest s1 in
      (s2, e1 ++ e2)
  end.

(** No instance is closed twice and none is sent a frame after it was
    closed; [closed] lists the instances closed so far. *)
Fixpoint closed_is_final (closed : list handle) (tr : list effect) : bool :=
  match tr with
  | [] => true
  | HolisticClose h :: rest =>
      negb (existsb (Nat.eqb h) closed) && closed_is_final (h :: closed) rest
  | HolisticSend h :: rest =>
      negb (existsb (Nat.eqb h) closed) && closed_is_final closed rest
  | _ :: rest => closed_is_final closed rest
  end.

(** Every closed instance was constructed before, and the instance in
    use is not among the closed ones. *)
Definition sound (closed : list handle) (s : service) : Prop :=
  (forall h, In h closed -> h < constructed s) /\
  (forall h, holistic s = Some h -> h < constructed s /\ ~ In h closed).

End MediaPipeService.

(* ================================================================== *)
(** ** JavaScript helpers used by the live interface *)

Module JS.

Local Open Scope Z_scope.

Definition is_white (c : ascii) : bool :=
  let n := Z.of_nat (nat_of_ascii c) in
  (n =? 32) || ((9 <=? n) && (n <=? 13)).

Fixpoint trim_left (s : string) : string :=
  match s with
  | String c r => if is_white c then trim_left r else s
  | EmptyString => s
  end.

Definition digit_val (c : ascii) : option Z :=
  let n := Z.of_nat (nat_of_ascii c) in
  if (48 <=? n) && (n <=? 57) then Some (n - 48)
  else if (97 <=? n) && (n <=? 122) then Some (n - 87)
  else if (65 <=? n) && (n <=? 90) then Some (n - 55)
  else None.

(** Longest prefix of digits of the radix; [None] when there is none. *)
Fixpoint parse_digits (radix : Z) (s : string) (acc : option Z) : option Z :=
  match s with
  | String c r =>
      match digit_val c with
      | Some d =>
          if d <? radix
          then parse_digits radix r
                 (Some (match acc with Some a => a * radix + d | None => d end))
          else acc
      | None => acc
      end
  | EmptyString => acc
  end.

(** [parseInt(s)] without a radix argument; [None] is [NaN].  White
    space is ASCII white space only. *)
Definition parseInt (s : string) : option Z :=
  let s := trim_left s in
  let '(neg, s) :=
    match s with
    | String "-"%char r => (true, r)
    | String "+"%char r => (false, r)
    | _ => (false, s)
    end in
  let '(radix, s) :=
    match s with
    | String "0"%char (String "x"%char r) => (16, r)
    | String "0"%char (String "X"%char r) => (16, r)
    | _ => (10, s)
    end in
  option_map (fun v => if neg then - v else v) (parse_digits radix s None).

(** Decimal rendering of an integer. *)
Definition dec (z : Z) : string := NilZero.string_of_int (Z.to_int z).

(** [x.toFixed(d)] as the integer [n] with [n / 10^d] nearest to [|x|],
    the larger one on a tie. *)
Definition toFixed_scaled (d : nat) (x : number) : Z :=
  Qfloor (Qabs x * inject_Z (10 ^ Z.of_nat d) + (1 # 2))%Q.

Fixpoint pad_left (width : nat) (s : string) : string :=
  match width with
  | O => s
  | S w => if (String.length s <? width)%nat then pad_left w (String "0"%char s) else s
  end.

(** The string [x.toFixed(d)]. *)
Definition toFixed (d : nat) (x : number) : string :=
  let n := toFixed_scaled d x in
  let p := 10 ^ Z.of_nat d in
  let sign := if Qlt_le_dec x 0 then "-"%string else ""%string in
  let ip := dec (n / p) in
  match d with
  | O => (sign ++ ip)%string
  | _ => (sign ++ ip ++ "." ++ pad_left d (dec (n mod p)))%string
  end.

(** [Number(x.toFixed(d))]: the value the string denotes when it is
    coerced back to a number by an arithmetic operator. *)
Definition toFixed_value (d : nat) (x : number) : number :=
  let v := (inject_Z (toFixed_scaled d x) / inject_Z (10 ^ Z.of_nat d))%Q in
  if Qlt_le_dec x 0 then (- v)%Q else v.

(** [Math.floor] *)
Definition floor (x : number) : Z := Qfloor x.

(** [a || b] on a possibly missing string: missing and empty are falsy. *)
Definition or_else (a : option string) (b : string) : string :=
  match a with
  | Some EmptyString => b
  | Some t => t
  | None => b
  end.

End JS.

(* ================================================================== *)
(** ** DeafUserInterface (live Recording Controller) *)

Module DeafUserInterface.

(** [extractKeypoints(results)]: pose, face, left hand, right hand. *)
Definition extractKeypoints (r : results) : list triple :=
  let keypoints := [] in
  let keypoints := addPoints (poseLandmarks r) 33 keypoints in
  let keypoints := addPoints (faceLandmarks r) 468 keypoints in
  let keypoints := addPoints (leftHandLandmarks r) 21 keypoints in
  let keypoints := addPoints (rightHandLandmarks r) 21 keypoints in
  keypoints.

(** An entry of [demoSigns]. *)
Record demoSign := mkSign { sign_id : string; label : string; text : string }.

Definition demoSigns : list demoSign :=
  [ mkSign "hello" "Hello 👋" "hello";
    mkSign "how_are_you" "How Are You? 🤔" "how are you";
    mkSign "good_morning" "Good Morning ☀️" "good morning";
    mkSign "good_afternoon" "Good Afternoon 🌤️" "good afternoon";
    mkSign "alright" "Alright 👍" "alright" ].

(** Refs and React state of the component, and the number of
    [Math.random()] draws made so far. *)
Record state := mkState {
  isRecording : bool;
  isRecordingRef : bool;
  frames : list frame;
  framesRef : list frame;
  frameCount : nat;
  frameCountRef : nat;
  isProcessing : bool;
  error : option string;
  recognizedText : string;
  translatedText : string;
  demoOverrideRef : option demoSign;
  random_draws : nat
}.

Definition initial : state :=
  mkState false false [] [] 0 0 false None "" "" None 0.

(** [{sign, confidence}] *)
Record prediction := mkPrediction { sign : string; confidence : number }.

(** What [apiService.processDeafUserMessage] resolves to. *)
Record recognition := mkRecognition {
  status_success : bool;
  recognized_text : string;
  translated_text : string;
  predictions : list prediction
}.

(** Calls that leave the component. *)
Inductive effect :=
| Recognize (submitted : list frame)
| Translate (what : string)
| SetTimeout (ms : Z).

(** What an [await] resumes with. *)
Inductive response :=
| TimerFired
| RecognizeReturned (result : recognition)
| RecognizeThrew (message : string)
| TranslateReturned (translated : option string)
| TranslateThrew.

(** The [await] an invocation of [stopRecording] is suspended at. *)
Inductive pending :=
| AwaitDemoDelay (s : demoSign)
| AwaitDemoTranslate (s : demoSign)
| AwaitRecognize
| AwaitTopTranslate (top : string).

Definition step_result := (state * list effect * option pending)%type.

Definition set_isRecording b (s : state) : state :=
  mkState b b (frames s) (framesRef s) (frameCount s) (frameCountRef s)
          (isProcessing s) (error s) (recognizedText s) (translatedText s)
          (demoOverrideRef s) (random_draws s).

Definition set_isProcessing b (s : state) : state :=
  mkState (isRecording s) (isRecordingRef s) (frames s) (framesRef s)
          (frameCount s) (frameCountRef s) b (error s) (recognizedText s)
          (translatedText s) (demoOverrideRef s) (random_draws s).

Definition set_error e (s : state) : state :=
  mkState (isRecording s) (isRecordingRef s) (frames s) (framesRef s)
          (frameCount s) (frameCountRef s) (isProcessing s) e
          (recognizedText s) (translatedText s) (demoOverrideRef s)
          (random_draws s).

Definition set_recognizedText t (s : state) : state :=
  mkState (isRecording s) (isRecordingRef s) (frames s) (framesRef s)
          (frameCount s) (frameCountRef s) (isProcessing s) (error s) t
          (translatedText s) (demoOverrideRef s) (random_draws s).

Definition set_translatedText t (s : state) : state :=
  mkState (isRecording s) (isRecordingRef s) (frames s) (framesRef s)
          (frameCount s) (frameCountRef s) (isProcessing s) (error s)
          (recognizedText s) t (demoOverrideRef s) (random_draws s).

Definition set_demoOverrideRef o (s : state) : state :=
  mkState (isRecording s) (isRecordingRef s) (frames s) (framesRef s)
          (frameCount s) (frameCountRef s) (isProcessing s) (error s)
          (recognizedText s) (translatedText s) o (random_draws s).

Definition set_buffer (fs : list frame) (n : nat) (s : state) : state :=
  mkState (isRecording s) (isRecordingRef s) fs fs n n (isProcessing s)
          (error s) (recognizedText s) (translatedText s)
          (demoOverrideRef s) (random_draws s).

Definition drew (s : state) : state :=
  mkState (isRecording s) (isRecordingRef s) (frames s) (framesRef s)
          (frameCount s) (frameCountRef s) (isProcessing s) (error s)
          (recognizedText s) (translatedText s) (demoOverrideRef s)
          (S (random_draws s)).

(** [handleMediaPipeResults(results)], the part after the drawing. *)
Definition handleMediaPipeResults (r : results) (s : state) : state :=
  if isRecordingRef s then
    let keypoints := extractKeypoints r in
    let newFrame := mkFrame (frameCountRef s) keypoints in
    set_buffer (framesRef s ++ [newFrame]) (frameCountRef s + 1) s
  else s.

(** [startRecording()] *)
Definition startRecording (s : state) : state :=
  let s := set_buffer [] 0 s in
  let s := set_isRecording true s in
  let s := set_recognizedText "" s in
  let s := set_translatedText "" s in
  set_error None s.

(** A [keydown] event, as far as the handler reads it. *)
Record keyEvent := mkKey { tagName : string; key : string }.

(** [handleKeyPress(e)] *)
Definition handleKeyPress (e : keyEvent) (s : state) : state :=
  if (String.eqb (tagName e) "INPUT" || String.eqb (tagName e) "TEXTAREA")%bool
  then s
  else
    match JS.parseInt (key e) with
    | Some k =>
        let index := (k - 1)%Z in
        if ((0 <=? index)%Z && (index <? Z.of_nat (length demoSigns))%Z)%bool
        then set_demoOverrideRef (nth_error demoSigns (Z.to_nat index)) s
        else s
    | None => s
    end.

Section Random.

(** [Math_random n] is what the [n]-th call of [Math.random()] returns. *)
Variable Math_random : nat -> number.

(** [processDemoSign(sign)] up to its first [await]. *)
Definition processDemoSign (sg : demoSign) (s : state) : step_result :=
  let s := set_isProcessing true s in
  let s := set_error None s in
  let randomDelay :=
    (JS.floor (Math_random (random_draws s) * inject_Z 1400)%Q + 800)%Z in
  let s := drew s in
  (s, [SetTimeout randomDelay], Some (AwaitDemoDelay sg)).

(** The [finally] block of [processDemoSign]. *)
Definition demo_finally (s : state) : state :=
  set_demoOverrideRef None (set_isProcessing false s).

(** [stopRecording()] up to its first [await] (or to its end). *)
Definition stopRecording (s : state) : step_result :=
  let s := set_isRecording false s in
  match demoOverrideRef s with
  | Some sg => processDemoSign sg s
  | None =>
      let s := set_isProcessing true s in
      let collectedFrames := framesRef s in
      if (length collectedFrames =? 0)%nat then
        let s := set_error (Some "No frames recorded. Please try again."%string) s in
        let s := set_isProcessing false s in
        (set_isProcessing false s, [], None)
      else
        (s, [Recognize collectedFrames], Some AwaitRecognize)
  end.

(** The text shown for a sign and a confidence already rendered. *)
Definition with_confidence (what pct : string) : string :=
  (what ++ " (" ++ pct ++ "% confidence)")%string.

(** The continuation of a suspended [stopRecording] once its [await]
    settles.  A response of another kind than the one awaited is not
    delivered to it: the invocation stays suspended. *)
Definition resume (p : pending) (resp : response) (s : state) : step_result :=
  match p, resp with
  | AwaitDemoDelay sg, TimerFired =>
      let u := Math_random (random_draws s) in
      let s := drew s in
      let randomConfidence :=
        JS.toFixed_value 2 (u * ((94 # 100) - (82 # 100)) + (82 # 100))%Q in
      let s := set_recognizedText
                 (with_confidence (label sg)
                    (JS.toFixed 0 (randomConfidence * inject_Z 100)%Q)) s in
      (s, [Translate (text sg)], Some (AwaitDemoTranslate sg))
  | AwaitDemoTranslate sg, TranslateReturned t =>
      (demo_finally (set_translatedText (JS.or_else t (text sg)) s), [], None)
  | AwaitDemoTranslate sg, TranslateThrew =>
      (demo_finally (set_translatedText (text sg) s), [], None)
  | AwaitRecognize, RecognizeReturned result =>
      if status_success result then
        let s := set_recognizedText (recognized_text result) s in
        let s := set_translatedText (translated_text result) s in
        (set_isProcessing false s, [], None)
      else
        match predictions result with
        | topPrediction :: _ =>
            let s := set_recognizedText
                       (with_confidence (sign topPrediction)
                          (JS.toFixed 1 (confidence topPrediction * inject_Z 100)%Q)) s in
            (s, [Translate (sign topPrediction)],
             Some (AwaitTopTranslate (sign topPrediction)))
        | [] =>
            let s := set_error (Some "Could not recognize sign. Please try again."%string) s in
            (set_isProcessing false s, [], None)
        end
  | AwaitRecognize, RecognizeThrew message =>
      let s := set_error (Some ("Processing failed: " ++ message)%string) s in
      (set_isProcessing false s, [], None)
  | AwaitTopTranslate top, TranslateReturned t =>
      (set_isProcessing false (set_translatedText (JS.or_else t top) s), [], None)
  | AwaitTopTranslate top, TranslateThrew =>
      (set_isProcessing false (set_translatedText top s), [], None)
  | _, _ => (s, [], Some p)
  end.

(** A suspended invocation driven to its end by the responses its
    awaits receive, in order. *)
Fixpoint settle (p : option pending) (resps : list response) (s : state)
  : state * list effect * option pending :=
  match p, resps with
  | Some q, resp :: rest =>
      let '(s1, e1, p1) := resume q resp s in
      let '(s2, e2, p2) := settle p1 rest s1 in
      (s2, e1 ++ e2, p2)
  | _, _ => (s, [], p)
  end.

(** One whole [stopRecording()] call: the call and then its awaits. *)
Definition stopRecording_run (resps : list response) (s : state)
  : state * list effect * option pending :=
  let '(s1, e1, p1) := stopRecording s in
  let '(s2, e2, p2) := settle p1 resps s1 in
  (s2, e1 ++ e2, p2).

End Random.

(** What the controller reacts to: the record control, an engine
    result, a key, the stop control, and the settling of an [await] of
    an earlier [stopRecording] call. *)
Inductive event :=
| Start
| Results (r : results)
| KeyDown (e : keyEvent)
| Stop
| Settled (p : pending) (resp : response).

Definition react (Math_random : nat -> number) (ev : event) (s : state) : state :=
  match ev with
  | Start => startRecording s
  | Results r => handleMediaPipeResults r s
  | KeyDown e => handleKeyPress e s
  | Stop => fst (fst (stopRecording Math_random s))
  | Settled p resp => fst (fst (resume Math_random p resp s))
  end.

Definition run (Math_random : nat -> number) (evs : list event) (s : state) : state :=
  fold_left (fun s ev => react Math_random ev s) evs s.

(** [n] calls of [stopRecording] in immediate succession: none of their
    awaits settles in between. *)
Fixpoint stop_n (Math_random : nat -> number) (n : nat) (s : state)
  : state * list effect :=
  match n with
  | O => (s, [])
  | S m =>
      let '(s1, e1, _) := stopRecording Math_random s in
      let '(s2, e2) := stop_n Math_random m s1 in
      (s2, e1 ++ e2)
  end.

(** A click on the control of the dock: the stop button while
    [isRecording] is rendered true, else the start button, which is
    disabled while [isProcessing]. *)
Definition control_click (Math_random : nat -> number) (s : state)
  : state * list effect :=
  if isRecording s then
    let '(s1, e1, _) := stopRecording Math_random s in (s1, e1)
  else if isProcessing s then (s, [])
  else (startRecording s, []).

(** [n] clicks in immediate succession, each on the control as rendered
    after the click before. *)
Fixpoint click_n (Math_random : nat -> number) (n : nat) (s : state)
  : state * list effect :=
  match n with
  | O => (s, [])
  | S m =>
      let '(s1, e1) := control_click Math_random s in
      let '(s2, e2) := click_n Math_random m s1 in
      (s2, e1 ++ e2)
  end.

(** The buffer is numbered in order and the counter is its length. *)
Definition buffer_ok (s : state) : Prop :=
  contiguous (framesRef s) /\ frameCountRef s = length (framesRef s).

Definition is_recognize (e : effect) : bool :=
  match e with Recognize _ => true | _ => false end.

(** Number of recognition submissions in a trace. *)
Definition submissions (tr : list effect) : nat :=
  length (filter is_recognize tr).

(** *** Consent and camera set-up *)

(** The remaining React state and refs of the component. *)
Record setup := mkSetup {
  consentGiven : bool;
  cameraStarted : bool;
  mediaPipeReady : bool;
  holisticRef : option nat;
  cameraRef : option nat
}.

Definition not_set_up : setup := mkSetup false false false None None.

Inductive setup_effect :=
| GetUserMedia
| StopTracks
| LogConsent (granted : bool)
| NewHolistic
| NewCamera
| StartCamera
| StopCamera
| CloseHolistic.

Definition PERMISSION_DENIED : string :=
  "Camera permission denied. Please allow camera access.".

(** [requestCameraConsent()]; [granted] tells whether [getUserMedia]
    resolves, [logged] whether [apiService.logConsent] does. *)
Definition requestCameraConsent (granted logged : bool) (s : state) (u : setup)
  : state * setup * list setup_effect :=
  if granted then
    (set_error None s,
     mkSetup true (cameraStarted u) (mediaPipeReady u) (holisticRef u) (cameraRef u),
     [GetUserMedia; StopTracks; LogConsent true])
  else
    (set_error (Some PERMISSION_DENIED) s, u, [GetUserMedia; LogConsent false]).

(** What [initializeCamera] meets: whether the CDN scripts defined
    [window.Holistic] and [window.Camera], and what each later step
    throws, if it throws. *)
Record browser := mkBrowser {
  has_Holistic : bool;
  has_Camera : bool;
  holistic_throws : option string;
  camera_throws : option string;
  start_throws : option string
}.

Definition init_failed (message : string) : option string :=
  Some ("Failed to initialize MediaPipe: " ++ message)%string.

(** [initializeCamera()] *)
Definition initializeCamera (b : browser) (s : state) (u : setup)
  : state * setup * list setup_effect :=
  let s := set_error None s in
  if (negb (has_Holistic b) || negb (has_Camera b))%bool then
    (set_error (init_failed "MediaPipe not loaded. Please refresh the page.") s, u, [])
  else
    match holistic_throws b with
    | Some m => (set_error (init_failed m) s, u, [NewHolistic])
    | None =>
        let u1 := mkSetup (consentGiven u) (cameraStarted u) (mediaPipeReady u)
                          (Some 0) (cameraRef u) in
        match camera_throws b with
        | Some m => (set_error (init_failed m) s, u1, [NewHolistic; NewCamera])
        | None =>
            let u2 := mkSetup (consentGiven u) (cameraStarted u) (mediaPipeReady u)
                              (Some 0) (Some 0) in
            match start_throws b with
            | Some m =>
                (set_error (init_failed m) s, u2,
                 [NewHolistic; NewCamera; StartCamera])
            | None =>
                (s, mkSetup (consentGiven u) true true (Some 0) (Some 0),
                 [NewHolistic; NewCamera; StartCamera])
            end
        end
    end.

(** The cleanup of the mount effect. *)
Definition unmount (u : setup) : list setup_effect :=
  (match cameraRef u with Some _ => [StopCamera] | None => [] end) ++
  (match holisticRef u with Some _ => [CloseHolistic] | None => [] end).

(** The frames a recording of the given results holds. *)
Fixpoint frames_of (first_id : nat) (rs : list results) : list frame :=
  match rs with
  | [] => []
  | r :: rest => mkFrame first_id (extractKeypoints r) :: frames_of (S first_id) rest
  end.

End DeafUserInterface.

(* ================================================================== *)
(** ** APIService (services/api.service.js) *)

Module APIService.

(** The body of the recognition service's answer, as far as it is read. *)
Record recognize_data := mkData {
  data_text : option string;
  data_predictions : option (list DeafUserInterface.prediction)
}.

(** The body posted to [/recognize]. *)
Record recognize_request := mkRequest {
  user_id : string;
  request_frames : list frame
}.

Definition truthy (t : option string) : bool :=
  match t with
  | Some EmptyString => false
  | Some _ => true
  | None => false
  end.

(** What [processDeafUserMessage] posts. *)
Definition recognize_body (userId sessionId : string) (frames : list frame)
                          (targetLanguage : string) : recognize_request :=
  mkRequest userId frames.

(** What [processDeafUserMessage] returns for an answer.  A missing
    text is the empty string and a missing prediction list the empty
    list here; the caller reads the text only when it is truthy and
    treats a missing list and an empty one alike. *)
Definition processDeafUserMessage (d : recognize_data) : DeafUserInterface.recognition :=
  let t := match data_text d with Some t => t | None => EmptyString end in
  DeafUserInterface.mkRecognition
    (truthy (data_text d)) t t
    (match data_predictions d with Some ps => ps | None => [] end).

End APIService.

(* ================================================================== *)
(** ** DeafUserDemoMode *)

Module DeafUserDemoMode.

Record demoSign := mkSign { sign_id : string; label : string; text : string }.

Definition demoSigns : list demoSign :=
  [ mkSign "hello" "Hello 👋" "hello";
    mkSign "thank_you" "Thank You 🙏" "thank you";
    mkSign "good_morning" "Good Morning ☀️" "good morning";
    mkSign "how_are_you" "How Are You? 🤔" "how are you";
    mkSign "alright" "Alright 👍" "alright" ].

Record state := mkState {
  selectedSign : string;
  recognizedText : string;
  translatedText : string;
  isProcessing : bool;
  error : option string
}.

Definition initial : state := mkState "" "" "" false None.

Inductive effect :=
| GatewayProcess (frames : list frame)
| Translate (what : string).

(** How the request to [/deaf-user/process] ends. *)
Inductive gateway :=
| GatewayOk
| GatewayStatus (status : Z)          (* answered, [response.ok] false *)
| GatewayThrows (message : string).

(** How the request to [/translate] ends. *)
Inductive translation :=
| Translated (translated_text : option string)
| TranslateThrows (message : string).

Definition failed (message : string) : option string :=
  Some ("Processing failed: " ++ message)%string.

(** [processSign(sign)], run to its end. *)
Definition processSign (sg : demoSign) (g : gateway) (t : translation) (s : state)
  : state * list effect :=
  let request := GatewayProcess [] in
  let finish (recognized translated : string) (e : option string) :=
    mkState (sign_id sg) recognized translated false e in
  match g with
  | GatewayThrows m => (finish (text sg) (translatedText s) (failed m), [request])
  | GatewayStatus status =>
      (finish (text sg) (translatedText s)
              (failed ("HTTP error! status: " ++ JS.dec status)%string),
       [request])
  | GatewayOk =>
      match t with
      | TranslateThrows m =>
          (finish (text sg) (translatedText s) (failed m),
           [request; Translate (text sg)])
      | Translated answer =>
          (finish (text sg) (JS.or_else answer (text sg)) None,
           [request; Translate (text sg)])
      end
  end.

(** [handleKeyPress(e)] *)
Definition handleKeyPress (key : string) (g : gateway) (t : translation) (s : state)
  : state * list effect :=
  match JS.parseInt key with
  | Some k =>
      let index := (k - 1)%Z in
      if ((0 <=? index)%Z && (index <? Z.of_nat (length demoSigns))%Z &&
          negb (isProcessing s))%bool
      then
        match nth_error demoSigns (Z.to_nat index) with
        | Some sg => processSign sg g t s
        | None => (s, [])
        end
      else (s, [])
  | None => (s, [])
  end.

Definition is_gateway (e : effect) : bool :=
  match e with GatewayProcess _ => true | _ => false end.

End DeafUserDemoMode.

(* ================================================================== *)
(** ** DatasetProcessor (batch Job Queue and Frame Driver) *)

Module DatasetProcessor.

(** [extractKeypoints(results)]: pose, face, left hand, right hand. *)
Definition extractKeypoints (r : results) : list triple :=
  let keypoints := [] in
  let keypoints := addPoints (poseLandmarks r) 33 keypoints in
  let keypoints := addPoints (faceLandmarks r) 468 keypoints in
  let keypoints := addPoints (leftHandLandmarks r) 21 keypoints in
  let keypoints := addPoints (rightHandLandmarks r) 21 keypoints in
  keypoints.

(** An entry of the list [/api/list-videos] returns. *)
Record video := mkVideo { filename : string; url : string; sign_label : string }.

(** A Holistic instance, named by the order of its construction. *)
Definition handle := nat.

Inductive logmsg :=
| Finished (v : video) (n : nat)
| ZeroFrames (v : video)
| LoadError (v : video)
| Crash (v : video)
| PlayError
| Failed (v : video)
| AllComplete.

Inductive effect :=
| EngineClose (h : handle)
| EngineNew (h : handle)
| EngineSend (h : handle)
| SaveData (v : video) (fs : list frame)
| Pause
| RequestFrame
| Delay (ms : nat)
| Log (m : logmsg).

(** *** One job: [processVideoSimple] *)

(** The closure variables of one [processVideoSimple] call, the two
    flags of its video element it reads, and whether its promise has
    been resolved. *)
Record session := mkSession {
  frames : list frame;
  frameId : nat;
  isProcessingFrame : bool;
  paused : bool;
  ended : bool;
  settled : bool
}.

(** After [videoEl.play()] has been called. *)
Definition fresh : session := mkSession [] 0 false false false false.

(** Whether [holistic.send] resolves or throws. *)
Inductive send_result := SendResolves | SendThrows.

(** What the browser and the engine deliver to the job's callbacks. *)
Inductive event :=
| Offer (send : send_result)   (* a frame is due: [processNextFrame] runs *)
| OnResults (r : results)
| OnEnded
| OnError
| PlayRejected.

(** The handler given to [holisticRef.current.onResults]. *)
Definition onResults (r : results) (s : session) : session :=
  let keypoints := extractKeypoints r in
  mkSession (frames s ++ [mkFrame (frameId s) keypoints]) (frameId s + 1)
            false (paused s) (ended s) (settled s).

(** [processNextFrame()]; [send] tells how the send ends if one is
    issued. *)
Definition processNextFrame (holisticRef : option handle) (v : video)
                            (send : send_result) (s : session)
  : session * list effect :=
  if (paused s || ended s)%bool then (s, [])
  else
    match isProcessingFrame s, holisticRef with
    | false, Some h =>
        match send with
        | SendThrows =>
            (mkSession (frames s) (frameId s) false true (ended s) true,
             [EngineSend h; Pause; Log (Crash v)])
        | SendResolves =>
            (mkSession (frames s) (frameId s) true (paused s) (ended s) (settled s),
             [EngineSend h; RequestFrame])
        end
    | _, _ => (s, [RequestFrame])
    end.

(** [videoEl.onended] *)
Definition onended (v : video) (s : session) : session * list effect :=
  let s := mkSession (frames s) (frameId s) (isProcessingFrame s) (paused s)
                     true (settled s) in
  let saved :=
    if (0 <? length (frames s))%nat
    then [SaveData v (frames s)]
    else [Log (ZeroFrames v)] in
  (mkSession (frames s) (frameId s) (isProcessingFrame s) (paused s) (ended s) true,
   Log (Finished v (length (frames s))) :: saved).

Definition resolve (s : session) : session :=
  mkSession (frames s) (frameId s) (isProcessingFrame s) (paused s) (ended s) true.

Definition step (holisticRef : option handle) (v : video) (ev : event)
                (s : session) : session * list effect :=
  match ev with
  | Offer send => processNextFrame holisticRef v send s
  | OnResults r =>
      match holisticRef with
      | Some _ => (onResults r s, [])
      | None => (s, [])
      end
  | OnEnded => onended v s
  | OnError => (resolve s, [Log (LoadError v)])
  | PlayRejected => (resolve s, [Log PlayError])
  end.

Fixpoint drive (holisticRef : option handle) (v : video) (evs : list event)
               (s : session) : session * list effect :=
  match evs with
  | [] => (s, [])
  | ev :: rest =>
      let '(s1, e1) := step holisticRef v ev s in
      let '(s2, e2) := drive holisticRef v rest s1 in
      (s2, e1 ++ e2)
  end.

(** How the promise of [processVideoSimple] ends. *)
Inductive outcome := Resolved | Rejected | Pending.

(** One job as the loop sees it: the video, whether the promise
    executor throws while it sets the job up (the only way the promise
    is rejected: [reject] is never called), and what the callbacks
    receive afterwards. *)
Record job := mkJob { source : video; setup_throws : bool; script : list event }.

Definition processVideoSimple (holisticRef : option handle) (j : job)
  : outcome * session * list effect :=
  if setup_throws j then (Rejected, fresh, [])
  else
    let '(s, tr) := drive holisticRef (source j) (script j) fresh in
    (if settled s then Resolved else Pending, s, tr).

(** *** The queue: [startProcessing] *)

Record component := mkComponent {
  holisticRef : option handle;
  constructed : nat;           (* instances constructed so far *)
  processedCount : nat         (* the React state, as last set *)
}.

(** [createHolisticInstance()] *)
Definition createHolisticInstance (c : component) : component * list effect :=
  let closing :=
    match holisticRef c with
    | Some h => [EngineClose h]
    | None => []
    end in
  (mkComponent (Some (constructed c)) (S (constructed c)) (processedCount c),
   closing ++ [EngineNew (constructed c)]).

(** The component after its mount effect. *)
Definition mounted : component := fst (createHolisticInstance (mkComponent None 0 0)).

Definition RECYCLE_PERIOD : nat := 20.

(** The body of [for (const video of videos)].  [captured] is the value
    of [processedCount] in the render whose [startProcessing] is
    running: the closure reads that constant, while
    [setProcessedCount] updates the state of later renders.  The
    result is [None] when the job's promise never settles. *)
Fixpoint loop (captured : nat) (jobs : list job) (c : component)
  : option component * list effect :=
  match jobs with
  | [] => (Some c, [])
  | j :: rest =>
      let '(c1, e1) :=
        if ((0 <? captured) && (captured mod RECYCLE_PERIOD =? 0))%bool
        then createHolisticInstance c
        else (c, []) in
      let '(o, _, e2) := processVideoSimple (holisticRef c1) j in
      match o with
      | Resolved =>
          let c2 := mkComponent (holisticRef c1) (constructed c1)
                                (S (processedCount c1)) in
          let '(c3, e3) := loop captured rest c2 in
          (c3, e1 ++ e2 ++ [Delay 100] ++ e3)
      | Rejected =>
          let '(c2, e3) := createHolisticInstance c1 in
          let '(c3, e4) := loop captured rest c2 in
          (c3, e1 ++ e2 ++ [Log (Failed (source j))] ++ e3 ++ e4)
      | Pending => (None, e1 ++ e2)
      end
  end.

(** [startProcessing()] as created by the render in which
    [processedCount] was [captured]. *)
Definition startProcessing (captured : nat) (jobs : list job) (c : component)
  : option component * list effect :=
  let c := mkComponent (holisticRef c) (constructed c) 0 in
  let '(c1, tr) := loop captured jobs c in
  match c1 with
  | Some _ => (c1, tr ++ [Log AllComplete])
  | None => (c1, tr)
  end.

(** The buffer is numbered in order and the counter is its length. *)
Definition buffer_ok (s : session) : Prop :=
  contiguous (frames s) /\ frameId s = length (frames s).

Definition is_new (e : effect) : bool :=
  match e with EngineNew _ => true | _ => false end.

Definition is_send (e : effect) : bool :=
  match e with EngineSend _ => true | _ => false end.

Definition is_save (e : effect) : bool :=
  match e with SaveData _ _ => true | _ => false end.

(** Number of engine recycles in a trace. *)
Definition recycles (tr : list effect) : nat := length (filter is_new tr).

(** Handles the sends of a trace went to, in order. *)
Definition sent_to (tr : list effect) : list handle :=
  flat_map (fun e => match e with EngineSend h => [h] | _ => [] end) tr.

(** *** Sends in flight *)



(** *** Log and bookkeeping *)

(** [prev.slice(-n)] *)
Definition slice_last (n : nat) (l : list logmsg) : list logmsg :=
  skipn (length l - n) l.

(** [addLog(msg)]: [setLogs(prev => [...prev.slice(-4), msg])] *)
Definition addLog (msg : logmsg) (prev : list logmsg) : list logmsg :=
  slice_last 4 prev ++ [msg].

(** The instance in use after a trace. *)
Fixpoint live_after (live : option handle) (tr : list effect) : option handle :=
  match tr with
  | [] => live
  | EngineClose _ :: rest => live_after None rest
  | EngineNew h :: rest => live_after (Some h) rest
  | _ :: rest => live_after live rest
  end.

(** An instance is constructed only when none is in use, and closed or
    sent a frame only while it is the one in use. *)
Fixpoint engine_use_ok (live : option handle) (tr : list effect) : bool :=
  match tr with
  | [] => true
  | EngineClose h :: rest =>
      match live with
      | Some l => (l =? h) && engine_use_ok None rest
      | None => false
      end
  | EngineNew h :: rest =>
      match live with
      | None => engine_use_ok (Some h) rest
      | Some _ => false
      end
  | EngineSend h :: rest =>
      match live with
      | Some l => (l =? h) && engine_use_ok live rest
      | None => false
      end
  | _ :: rest => engine_use_ok live rest
  end.

(** The frames a job collects from the given results. *)
Fixpoint frames_of (first_id : nat) (rs : list results) : list frame :=
  match rs with
  | [] => []
  | r :: rest => mkFrame first_id (extractKeypoints r) :: frames_of (S first_id) rest
  end.

Definition is_results (ev : event) : bool :=
  match ev with OnResults _ => true | _ => false end.

Definition is_failed_log (e : effect) : bool :=
  match e with Log (Failed _) => true | _ => false end.

(** Whether the loop re-creates the engine before each job. *)
Definition periodic (captured : nat) : bool :=
  (0 <? captured) && (captured mod RECYCLE_PERIOD =? 0).

(** A saved buffer is not empty and is numbered in order. *)
Definition save_is_sound (e : effect) : Prop :=
  match e with
  | SaveData _ fs => fs <> [] /\ contiguous fs
  | _ => True
  end.

End DatasetProcessor.

(* ================================================================== *)
(** ** VideoProcessor (training-data batch processor) *)

Module VideoProcessor.

(** An entry of [video_manifest.json]. *)
Record videoItem := mkItem { filename : string; sign_label : string }.

Definition item_eqb (a b : videoItem) : bool :=
  (String.eqb (filename a) (filename b) &&
   String.eqb (sign_label a) (sign_label b))%bool.

(** [manifest.indexOf(videoItem)]; [None] is [-1].  Entries of the
    manifest are distinct objects, compared here by their fields. *)
Fixpoint indexOf (it : videoItem) (manifest : list videoItem) : option nat :=
  match manifest with
  | [] => None
  | x :: rest =>
      if item_eqb x it then Some 0
      else option_map S (indexOf it rest)
  end.

(** [message.includes(needle)] *)
Fixpoint includes (needle message : string) : bool :=
  (String.prefix needle message ||
   match message with
   | EmptyString => false
   | String _ rest => includes needle rest
   end)%bool.

Inductive logmsg :=
| ErrorPlaying (it : videoItem) (message : string)
| NoFramesRetrying (it : videoItem)
| WarningNoFrames (it : videoItem)
| Saved (it : videoItem) (n : nat)
| ErrorSaving (it : videoItem)
| TimeoutZeroFrames (it : videoItem)
| TimeoutWithFrames
| RetryFailed.

Inductive effect :=
| Sleep (ms : Z)
| PlayAttempt (retryCount : nat)     (* [play()] in [playVideo] *)
| Replay                             (* [play()] in [processFrame] *)
| Seek (position : nat)              (* [currentTime = position] *)
| EngineSend
| RequestAnimationFrame
| SaveSample (it : videoItem) (fs : list frame)
| SetCurrentIndex (i : nat)
| Log (m : logmsg).

Record state := mkState {
  currentFramesRef : list frame;
  frameIdRef : nat;
  currentIndex : nat
}.

(** The keypoints [handleResults] builds: pose, left hand, right hand,
    face. *)
Definition extractKeypoints (r : results) : list triple :=
  let keypoints := [] in
  let keypoints := addPoints (poseLandmarks r) 33 keypoints in
  let keypoints := addPoints (leftHandLandmarks r) 21 keypoints in
  let keypoints := addPoints (rightHandLandmarks r) 21 keypoints in
  let keypoints := addPoints (faceLandmarks r) 468 keypoints in
  keypoints.

(** [handleResults(results)] *)
Definition handleResults (r : results) (st : state) : state :=
  let keypoints := extractKeypoints r in
  mkState (currentFramesRef st ++ [mkFrame (frameIdRef st) keypoints])
          (frameIdRef st + 1) (currentIndex st).

(** [saveResults(videoItem)]; [fetch_ok] tells whether the request
    succeeds. *)
Definition saveResults (fetch_ok : bool) (it : videoItem) (st : state)
  : list effect :=
  if (length (currentFramesRef st) =? 0)%nat then [Log (WarningNoFrames it)]
  else
    SaveSample it (currentFramesRef st) ::
    (if fetch_ok
     then [Log (Saved it (length (currentFramesRef st)))]
     else [Log (ErrorSaving it)]).

(** [setCurrentIndex(prev => prev + 1)] *)
Definition advance (st : state) : state * list effect :=
  (mkState (currentFramesRef st) (frameIdRef st) (S (currentIndex st)),
   [SetCurrentIndex (S (currentIndex st))]).

(** How one [holistic.send] of the frame loop ends. *)
Inductive send_result :=
| Delivered (r : results)     (* resolves after [handleResults] ran *)
| NoResult                    (* resolves, no result callback *)
| Throws.

(** What one invocation of [processFrame] meets. *)
Inductive observation :=
| Playing (send : send_result)
| Stopped (replay_ok fetch_ok : bool).   (* [ended || paused] *)

(** One invocation of [processFrame] in the closure of the render with
    [currentIndex = captured]; the boolean tells whether the loop goes
    on. *)
Definition processFrame (captured : nat) (manifest : list videoItem)
                        (it : videoItem) (o : observation) (st : state)
  : state * list effect * bool :=
  match o with
  | Stopped replay_ok fetch_ok =>
      if (0 <? length (currentFramesRef st))%nat then
        let saved := saveResults fetch_ok it st in
        match indexOf it manifest with
        | Some i =>
            if (captured =? i)%nat
            then let '(st1, e) := advance st in (st1, saved ++ e, false)
            else (st, saved, false)
        | None => (st, saved, false)
        end
      else
        let st := mkState [] (frameIdRef st) (currentIndex st) in
        (st,
         [Log (NoFramesRetrying it); Seek 0; Replay] ++
         (if replay_ok then [] else [Log RetryFailed]),
         replay_ok)
  | Playing send =>
      match send with
      | Delivered r => (handleResults r st, [EngineSend; RequestAnimationFrame], true)
      | NoResult => (st, [EngineSend; RequestAnimationFrame], true)
      | Throws => (st, [EngineSend], false)
      end
  end.

(** [processVideoFrames(videoItem)]: the frame loop, for as long as the
    observations last. *)
Fixpoint processVideoFrames (captured : nat) (manifest : list videoItem)
                            (it : videoItem) (obs : list observation)
                            (st : state) : state * list effect :=
  match obs with
  | [] => (st, [])
  | o :: rest =>
      let '(st1, e1, go_on) := processFrame captured manifest it o st in
      if go_on then
        let '(st2, e2) := processVideoFrames captured manifest it rest st1 in
        (st2, e1 ++ e2)
      else (st1, e1)
  end.

(** What one call of [playVideo] meets: [play()] rejects, or it resolves
    and the frame loop makes the given observations before the safety
    timeout fires. *)
Inductive attempt :=
| PlayRejects (message : string)
| PlayResolves (obs : list observation) (fetch_ok : bool).

Definition MAX_RETRIES : nat := 3.
Definition WATCHDOG_MS : Z := 12000.

(** [playVideo(retryCount)]; [env k] is what the call with
    [retryCount = k] meets.  [None] when the fuel runs out. *)
Fixpoint playVideo (fuel : nat) (env : nat -> attempt) (captured : nat)
                   (manifest : list videoItem) (it : videoItem)
                   (retryCount : nat) (st : state)
  : option (state * list effect) :=
  match fuel with
  | O => None
  | S fuel' =>
      if (MAX_RETRIES <? retryCount)%nat then
        let '(st1, e) := advance st in
        Some (st1, [Log (ErrorPlaying it "Max retries exceeded"); Sleep 1000%Z] ++ e)
      else
        match env retryCount with
        | PlayRejects message =>
            let pre := [Sleep 500%Z; PlayAttempt retryCount;
                        Log (ErrorPlaying it message)] in
            if includes "interrupted" message then
              match playVideo fuel' env captured manifest it (retryCount + 1) st with
              | Some (st1, e) => Some (st1, pre ++ [Sleep 300%Z] ++ e)
              | None => None
              end
            else
              let '(st1, e) := advance st in
              Some (st1, pre ++ [Sleep 1000%Z] ++ e)
        | PlayResolves obs fetch_ok =>
            let pre := [Sleep 500%Z; PlayAttempt retryCount] in
            let '(st1, e1) := processVideoFrames captured manifest it obs st in
            let pre := pre ++ e1 ++ [Sleep WATCHDOG_MS] in
            match indexOf it manifest with
            | Some i =>
                if (captured =? i)%nat then
                  if (length (currentFramesRef st1) =? 0)%nat then
                    match playVideo fuel' env captured manifest it
                                    (retryCount + 1) st1 with
                    | Some (st2, e) =>
                        Some (st2, pre ++ [Log (TimeoutZeroFrames it)] ++ e)
                    | None => None
                    end
                  else
                    let saved := saveResults fetch_ok it st1 in
                    let '(st2, e) := advance st1 in
                    Some (st2, pre ++ [Log TimeoutWithFrames] ++ saved ++ e)
                else Some (st1, pre)
            | None => Some (st1, pre)
            end
        end
  end.

(** [processNextVideo()] in the render with the given [currentIndex];
    [holistic] tells whether the engine state is set. *)
Definition processNextVideo (fuel : nat) (env : nat -> attempt)
                            (holistic : bool) (manifest : list videoItem)
                            (st : state)
  : option (state * list effect) :=
  if (negb holistic || (length manifest <=? currentIndex st)%nat)%bool
  then Some (st, [])
  else
    match nth_error manifest (currentIndex st) with
    | Some videoItem =>
        let st := mkState [] 0 (currentIndex st) in
        playVideo fuel env (currentIndex st) manifest videoItem 0 st
    | None => Some (st, [])
    end.

Definition is_save (e : effect) : bool :=
  match e with SaveSample _ _ => true | _ => false end.

(** The retry counts with which [playVideo] called [play()]. *)
Definition attempts (tr : list effect) : list nat :=
  flat_map (fun e => match e with PlayAttempt k => [k] | _ => [] end) tr.



(** *** Log and manual controls *)

(** The entry [addLog] builds from the time of day and the message. *)
Definition log_entry (time msg : string) : string :=
  ("[" ++ time ++ "] " ++ msg)%string.

(** [addLog(msg)]: [setLogs(prev => [entry, ...prev].slice(0, 50))] *)
Definition addLog (time msg : string) (prev : list string) : list string :=
  firstn 50 (log_entry time msg :: prev).

(** The "Skip Next" button: [Math.min(prev + 1, manifest.length - 1)] *)
Definition skipNext (manifest : list videoItem) (prev : Z) : Z :=
  Z.min (prev + 1) (Z.of_nat (length manifest) - 1).

(** The "Prev" button: [Math.max(prev - 1, 0)] *)
Definition previous (prev : Z) : Z := Z.max (prev - 1) 0.

(** A saved buffer is not empty and is numbered in order. *)
Definition save_is_sound (e : effect) : Prop :=
  match e with
  | SaveSample _ fs => fs <> [] /\ contiguous fs
  | _ => True
  end.

Definition buffer_ok (st : state) : Prop :=
  contiguous (currentFramesRef st) /\ frameIdRef st = length (currentFramesRef st).

End VideoProcessor.

(* ================================================================== *)
(** ** Auxiliary notions and sample inputs *)

(** The entries [offset .. offset + count - 1] of a vector. *)
Definition slice (offset count : nat) (v : list triple) : list triple :=
  firstn count (skipn offset v).

(** A landmark with whole coordinates. *)
Definition point (a b c : Z) : landmark :=
  mkLandmark (inject_Z a) (inject_Z b) (inject_Z c).

(** A frame in which pose and both hands are detected and the face is
    not. *)
Definition no_face : results :=
  mkResults (Some (repeat (point 1 2 3) 33)) None
            (Some (repeat (point 4 5 6) 21)) (Some (repeat (point 7 8 9) 21)).

(** A frame in which only the left hand is detected. *)
Definition left_hand_only : results :=
  mkResults None None (Some (repeat (point 1 1 1) 21)) None.

Definition sample_video : DatasetProcessor.video :=
  DatasetProcessor.mkVideo "hello_01.mp4" "/videos/hello_01.mp4" "hello".

(** No randomness is drawn along the paths below. *)
Definition no_random : nat -> number := fun _ => 0%Q.

(** [Math.random] returning 1/2 every time. *)
Definition always_half : nat -> number := fun _ => (1 # 2)%Q.

(** A job whose video plays one frame to the end, and a job whose first
    send resolves and whose second send throws, with one more frame
    offered after that. *)
Definition ok_job : DatasetProcessor.job :=
  DatasetProcessor.mkJob sample_video false
    [DatasetProcessor.Offer DatasetProcessor.SendResolves;
     DatasetProcessor.OnResults no_face;
     DatasetProcessor.OnEnded].

Definition crash_job : DatasetProcessor.job :=
  DatasetProcessor.mkJob sample_video false
    [DatasetProcessor.Offer DatasetProcessor.SendResolves;
     DatasetProcessor.OnResults no_face;
     DatasetProcessor.Offer DatasetProcessor.SendThrows;
     DatasetProcessor.Offer DatasetProcessor.SendResolves].

(** The component once a first run over twenty jobs has completed. *)
Definition after_first_run : DatasetProcessor.component :=
  DatasetProcessor.mkComponent (Some 0) 1 20.

(** Twenty jobs, the fifth of which crashes the engine. *)
Definition crash_on_fifth : list DatasetProcessor.job :=
  repeat ok_job 4 ++ [crash_job] ++ repeat ok_job 15.

(** The live controller while recording, one frame collected. *)
Definition recording_one_frame : DeafUserInterface.state :=
  DeafUserInterface.run no_random
    [DeafUserInterface.Start; DeafUserInterface.Results no_face]
    DeafUserInterface.initial.

(** A manifest of one video, and a source that on every attempt starts
    playing, is found stopped once and then yields no result. *)
Definition sample_item : VideoProcessor.videoItem :=
  VideoProcessor.mkItem "hello_01.mp4" "hello".


Definition first_video : VideoProcessor.state := VideoProcessor.mkState [] 0 0.

(** Whether some [initialize] completed since the last [cleanup]. *)
Fixpoint service_ready (ready : bool) (cs : list MediaPipeService.call) : bool :=
  match cs with
  | [] => ready
  | MediaPipeService.Initialize MediaPipeService.InitCompletes :: rest =>
      service_ready true rest
  | MediaPipeService.Cleanup :: rest => service_ready false rest
  | _ :: rest => service_ready ready rest
  end.

Definition is_initialize (c : MediaPipeService.call) : bool :=
  match c with MediaPipeService.Initialize _ => true | _ => false end.

(** The results a job's callbacks deliver, in order. *)
Definition results_of (evs : list DatasetProcessor.event) : list results :=
  flat_map (fun ev => match ev with
                      | DatasetProcessor.OnResults r => [r]
                      | _ => []
                      end) evs.

(** Consent requests made one after the other; each pair tells whether
    permission was granted and whether the consent log succeeded. *)
Fixpoint request_consents (answers : list (bool * bool))
                          (s : DeafUserInterface.state) (u : DeafUserInterface.setup)
  : DeafUserInterface.state * DeafUserInterface.setup :=
  match answers with
  | [] => (s, u)
  | (granted, logged) :: rest =>
      let '(s1, u1, _) := DeafUserInterface.requestCameraConsent granted logged s u in
      request_consents rest s1 u1
  end.

(** A run of two jobs, the first of which fails while it is set up. *)
Definition failing_setup_job : DatasetProcessor.job :=
  DatasetProcessor.mkJob sample_video true [].

(* ================================================================== *)
(** * Properties *)

(** ** Keypoint vectors *)

Lemma push_landmarks_app (lms : list landmark) (kp : list triple) :
  push_landmarks kp lms = kp ++ map triple_of lms.
Proof.
  unfold push_landmarks. revert kp.
  induction lms as [|lm lms IH]; intros kp; simpl.
  - now rewrite app_nil_r.
  - rewrite IH, <- app_assoc. reflexivity.
Qed.

Lemma push_zeros_app (count : nat) (kp : list triple) :
  push_zeros count kp = kp ++ repeat zero3 count.
Proof.
  revert kp. induction count as [|n IH]; intros kp; simpl.
  - now rewrite app_nil_r.
  - rewrite IH, <- app_assoc. reflexivity.
Qed.

Lemma addPoints_app (g : option (list landmark)) (count : nat) (kp : list triple) :
  addPoints g count kp = kp ++ group_points count g.
Proof.
  destruct g; simpl; [apply push_landmarks_app | apply push_zeros_app].
Qed.

Lemma group_points_length (count : nat) (g : option (list landmark)) :
  group_shaped count g -> length (group_points count g) = count.
Proof.
  destruct g; simpl; intros H.
  - now rewrite length_map.
  - apply repeat_length.
Qed.

(** The extractors of the live interface and of the dataset processor
    lay a vector out as pose, face, left hand, right hand. *)
Lemma face_second_layout (r : results) :
  DeafUserInterface.extractKeypoints r =
    group_points 33 (poseLandmarks r) ++ group_points 468 (faceLandmarks r) ++
    group_points 21 (leftHandLandmarks r) ++ group_points 21 (rightHandLandmarks r).
Proof.
  unfold DeafUserInterface.extractKeypoints.
  rewrite !addPoints_app. simpl. now rewrite <- !app_assoc.
Qed.

(** The MediaPipe service and the video processor lay it out as pose,
    left hand, right hand, face. *)
Lemma face_last_layout (r : results) :
  MediaPipeService.extractKeypoints r =
    group_points 33 (poseLandmarks r) ++ group_points 21 (leftHandLandmarks r) ++
    group_points 21 (rightHandLandmarks r) ++ group_points 468 (faceLandmarks r).
Proof.
  unfold MediaPipeService.extractKeypoints.
  rewrite !addPoints_app. simpl. now rewrite <- !app_assoc.
Qed.

Lemma dataset_extractor_is_live_extractor (r : results) :
  DatasetProcessor.extractKeypoints r = DeafUserInterface.extractKeypoints r.
Proof. reflexivity. Qed.

Lemma video_extractor_is_service_extractor (r : results) :
  VideoProcessor.extractKeypoints r = MediaPipeService.extractKeypoints r.
Proof. reflexivity. Qed.

Lemma slice_middle (a b c : list triple) (offset count : nat) :
  length a = offset -> length b = count -> slice offset count (a ++ b ++ c) = b.
Proof.
  intros Ha Hb. unfold slice. subst.
  rewrite skipn_app, skipn_all, Nat.sub_diag. simpl.
  rewrite firstn_app, firstn_all, Nat.sub_diag. simpl. now rewrite app_nil_r.
Qed.

Lemma slice_head (b c : list triple) (count : nat) :
  length b = count -> slice 0 count (b ++ c) = b.
Proof. intros H. apply (slice_middle [] b c); auto. Qed.

Lemma slice_last (a b : list triple) (offset count : nat) :
  length a = offset -> length b = count -> slice offset count (a ++ b) = b.
Proof.
  intros Ha Hb. rewrite <- (app_nil_r b) at 1. now apply slice_middle.
Qed.

(** Width of the vector for any result object, shaped or not. *)
Lemma extractKeypoints_length (r : results) :
  length (DeafUserInterface.extractKeypoints r) =
    length (group_points 33 (poseLandmarks r)) +
    length (group_points 468 (faceLandmarks r)) +
    length (group_points 21 (leftHandLandmarks r)) +
    length (group_points 21 (rightHandLandmarks r)).
Proof. rewrite face_second_layout, !length_app. lia. Qed.

(** C1. For every result object MediaPipe Holistic delivers (a detected
    group has its fixed cardinality), the live extractor and the service
    extractor return exactly 543 triples, and a group that was not
    detected fills its own 33, 468, 21 or 21 positions with (0,0,0):
    the width does not depend on what was detected. *)
Theorem C1_keypoint_vector_has_543_triples (r : results) :
  holistic_shaped r ->
  length (DeafUserInterface.extractKeypoints r) = 543 /\
  length (MediaPipeService.extractKeypoints r) = 543 /\
  (poseLandmarks r = None ->
     slice 0 33 (DeafUserInterface.extractKeypoints r) = repeat zero3 33 /\
     slice 0 33 (MediaPipeService.extractKeypoints r) = repeat zero3 33) /\
  (faceLandmarks r = None ->
     slice 33 468 (DeafUserInterface.extractKeypoints r) = repeat zero3 468 /\
     slice 75 468 (MediaPipeService.extractKeypoints r) = repeat zero3 468) /\
  (leftHandLandmarks r = None ->
     slice 501 21 (DeafUserInterface.extractKeypoints r) = repeat zero3 21 /\
     slice 33 21 (MediaPipeService.extractKeypoints r) = repeat zero3 21) /\
  (rightHandLandmarks r = None ->
     slice 522 21 (DeafUserInterface.extractKeypoints r) = repeat zero3 21 /\
     slice 54 21 (MediaPipeService.extractKeypoints r) = repeat zero3 21).
Proof.
  intros (Hp & Hf & Hl & Hr).
  apply group_points_length in Hp, Hf, Hl, Hr.
  unfold POSE_POINTS, FACE_POINTS, HAND_POINTS in *.
  rewrite face_second_layout, face_last_layout.
  set (P := group_points 33 (poseLandmarks r)) in *.
  set (F := group_points 468 (faceLandmarks r)) in *.
  set (L := group_points 21 (leftHandLandmarks r)) in *.
  set (R := group_points 21 (rightHandLandmarks r)) in *.
  assert (HP : poseLandmarks r = None -> repeat zero3 33 = P)
    by (intros H; subst P; now rewrite H).
  assert (HF : faceLandmarks r = None -> repeat zero3 468 = F)
    by (intros H; subst F; now rewrite H).
  assert (HL : leftHandLandmarks r = None -> repeat zero3 21 = L)
    by (intros H; subst L; now rewrite H).
  assert (HR : rightHandLandmarks r = None -> repeat zero3 21 = R)
    by (intros H; subst R; now rewrite H).
  clearbody P F L R.
  split; [rewrite !length_app; lia|].
  split; [rewrite !length_app; lia|].
  split; [|split; [|split]]; intros H; split.
  - rewrite (HP H). now apply slice_head.
  - rewrite (HP H). now apply slice_head.
  - rewrite (HF H). now apply slice_middle.
  - rewrite (HF H), !app_assoc. apply slice_last; auto.
    rewrite !length_app. lia.
  - rewrite (HL H), (app_assoc P F). apply slice_middle; auto.
    rewrite length_app. lia.
  - rewrite (HL H). now apply slice_middle.
  - rewrite (HR H), !app_assoc. apply slice_last; auto.
    rewrite !length_app. lia.
  - rewrite (HR H), (app_assoc P L). apply slice_middle; auto.
    rewrite length_app. lia.
Qed.

Lemma C1_witness :
  holistic_shaped no_face /\
  length (DeafUserInterface.extractKeypoints no_face) = 543 /\
  slice 33 468 (DeafUserInterface.extractKeypoints no_face) = repeat zero3 468.
Proof.
  assert (H : holistic_shaped no_face) by (repeat split; reflexivity).
  split; [exact H|].
  destruct (@C1_keypoint_vector_has_543_triples no_face H) as (Hlen & _ & _ & Hface & _).
  split; [exact Hlen|]. exact (proj1 (Hface eq_refl)).
Defined.

(** C2. The four extractors do not compute one function.  The live
    interface and the dataset processor agree on every frame, and so do
    the video processor and the MediaPipe service, but the two pairs
    order the groups differently.  On a frame with only the left hand
    detected the first pair puts the hand at positions 501..521, the
    second at positions 33..53: position 33 holds a face point (zero)
    in the first layout and a hand point in the second. *)
Theorem C2_extractors_disagree_on_group_order :
  (forall r, DatasetProcessor.extractKeypoints r =
             DeafUserInterface.extractKeypoints r) /\
  (forall r, VideoProcessor.extractKeypoints r =
             MediaPipeService.extractKeypoints r) /\
  holistic_shaped left_hand_only /\
  nth_error (DeafUserInterface.extractKeypoints left_hand_only) 33 = Some zero3 /\
  nth_error (MediaPipeService.extractKeypoints left_hand_only) 33 =
    Some (triple_of (point 1 1 1)) /\
  nth_error (DeafUserInterface.extractKeypoints left_hand_only) 501 =
    Some (triple_of (point 1 1 1)) /\
  nth_error (MediaPipeService.extractKeypoints left_hand_only) 501 = Some zero3 /\
  DeafUserInterface.extractKeypoints left_hand_only <>
    VideoProcessor.extractKeypoints left_hand_only.
Proof.
  split; [intros r; reflexivity|]. split; [intros r; reflexivity|].
  split; [repeat split; reflexivity|].
  split; [vm_compute; reflexivity|].
  split; [vm_compute; reflexivity|].
  split; [vm_compute; reflexivity|].
  split; [vm_compute; reflexivity|].
  intros H. apply (f_equal (fun v => nth_error v 33)) in H.
  vm_compute in H. discriminate H.
Qed.

(** ** Live Recording Controller *)

Module LiveFacts.
Import DeafUserInterface.

Lemma contiguous_snoc (fs : list frame) (kp : list triple) :
  contiguous fs -> contiguous (fs ++ [mkFrame (length fs) kp]).
Proof.
  unfold contiguous. intros H.
  rewrite map_app, length_app, H. simpl.
  rewrite Nat.add_1_r, seq_S. reflexivity.
Qed.

Lemma stopRecording_buffer rnd (s : state) :
  framesRef (fst (fst (stopRecording rnd s))) = framesRef s /\
  frameCountRef (fst (fst (stopRecording rnd s))) = frameCountRef s.
Proof.
  unfold stopRecording, processDemoSign. simpl.
  destruct (demoOverrideRef s); simpl; [auto|].
  destruct (length (framesRef s) =? 0); simpl; auto.
Qed.

Lemma resume_buffer rnd p resp (s : state) :
  framesRef (fst (fst (resume rnd p resp s))) = framesRef s /\
  frameCountRef (fst (fst (resume rnd p resp s))) = frameCountRef s.
Proof.
  destruct p, resp; simpl; auto.
  - destruct (status_success result); simpl; auto.
    destruct (predictions result); simpl; auto.
Qed.

Lemma handleKeyPress_buffer e (s : state) :
  framesRef (handleKeyPress e s) = framesRef s /\
  frameCountRef (handleKeyPress e s) = frameCountRef s.
Proof.
  unfold handleKeyPress.
  destruct (_ || _)%bool; auto.
  destruct (JS.parseInt (key e)); auto.
  destruct (_ && _)%bool; auto.
Qed.

Lemma react_buffer_ok rnd ev (s : state) : buffer_ok s -> buffer_ok (react rnd ev s).
Proof.
  intros [Hc Hn]. destruct ev; cbn [react].
  - split; reflexivity.
  - unfold handleMediaPipeResults. destruct (isRecordingRef s).
    + split; simpl.
      * rewrite Hn. now apply contiguous_snoc.
      * rewrite length_app, Hn. reflexivity.
    + now split.
  - unfold buffer_ok. destruct (handleKeyPress_buffer e s) as [-> ->]. now split.
  - destruct (stopRecording_buffer rnd s) as [H1 H2].
    unfold buffer_ok. rewrite H1, H2. now split.
  - destruct (resume_buffer rnd p resp s) as [H1 H2].
    unfold buffer_ok. rewrite H1, H2. now split.
Qed.

Lemma run_buffer_ok rnd evs (s : state) : buffer_ok s -> buffer_ok (run rnd evs s).
Proof.
  unfold run. revert s. induction evs as [|ev evs IH]; intros s H; simpl.
  - exact H.
  - apply IH, react_buffer_ok, H.
Qed.

End LiveFacts.

(** ** Batch Frame Driver and Job Queue *)

Module BatchFacts.
Import DatasetProcessor.

Lemma step_buffer_ok h v ev (s : session) :
  buffer_ok s -> buffer_ok (fst (step h v ev s)).
Proof.
  intros [Hc Hn]. destruct ev; cbn [step].
  - unfold processNextFrame.
    destruct (paused s || ended s)%bool; [now split|].
    destruct (isProcessingFrame s), h as [h|]; try now split.
    destruct send; now split.
  - destruct h as [h|]; [|now split]. split; simpl.
    + rewrite Hn. now apply LiveFacts.contiguous_snoc.
    + rewrite length_app, Hn. reflexivity.
  - unfold onended. simpl. now split.
  - now split.
  - now split.
Qed.

Lemma drive_buffer_ok h v evs (s : session) :
  buffer_ok s -> buffer_ok (fst (drive h v evs s)).
Proof.
  revert s. induction evs as [|ev evs IH]; intros s H; simpl; [exact H|].
  pose proof (step_buffer_ok h v ev H) as H1.
  destruct (step h v ev s) as [s1 e1]. simpl in H1.
  specialize (IH s1 H1). destruct (drive h v evs s1) as [s2 e2]. exact IH.
Qed.

(** The buffer only grows, and a step saves only a non-empty buffer. *)
Lemma step_frames_grow h v ev (s : session) :
  length (frames s) <= length (frames (fst (step h v ev s))) /\
  (frames s = [] -> filter is_save (snd (step h v ev s)) = []).
Proof.
  destruct ev; cbn [step].
  - unfold processNextFrame.
    destruct (paused s || ended s)%bool; [now split|].
    destruct (isProcessingFrame s), h as [h|]; try now split.
    destruct send; now split.
  - destruct h as [h|]; simpl; [|now split].
    rewrite length_app. split; [lia|reflexivity].
  - unfold onended. simpl. split; [lia|]. intros ->. reflexivity.
  - now split.
  - now split.
Qed.

Lemma drive_zero_frames_never_saved h v evs (s : session) :
  frames (fst (drive h v evs s)) = [] ->
  frames s = [] /\ filter is_save (snd (drive h v evs s)) = [].
Proof.
  revert s. induction evs as [|ev evs IH]; intros s H; simpl in *.
  - now split.
  - destruct (step_frames_grow h v ev s) as [Hle Hsave].
    destruct (step h v ev s) as [s1 e1]. simpl in Hle, Hsave.
    specialize (IH s1). destruct (drive h v evs s1) as [s2 e2]. simpl in *.
    destruct (IH H) as [H1 H2].
    assert (Hs : frames s = []).
    { rewrite H1 in Hle. simpl in Hle. destruct (frames s); [reflexivity|simpl in Hle; lia]. }
    split; [exact Hs|]. rewrite filter_app, H2, (Hsave Hs). reflexivity.
Qed.


(** Once a send has thrown, the job issues no further send. *)
Lemma no_send_once_paused h v evs (s : session) :
  paused s = true -> filter is_send (snd (drive h v evs s)) = [].
Proof.
  revert s. induction evs as [|ev evs IH]; intros s Hp; simpl; [reflexivity|].
  assert (H1 : paused (fst (step h v ev s)) = true /\
               filter is_send (snd (step h v ev s)) = []).
  { destruct ev; cbn [step].
    - unfold processNextFrame. rewrite Hp. simpl. now split.
    - destruct h; simpl; now split.
    - unfold onended. simpl. split; [exact Hp|].
      destruct (0 <? length (frames s)); reflexivity.
    - now split.
    - now split. }
  destruct (step h v ev s) as [s1 e1]. simpl in H1. destruct H1 as [Hp1 He1].
  specialize (IH s1 Hp1). destruct (drive h v evs s1) as [s2 e2]. simpl in *.
  now rewrite filter_app, He1, IH.
Qed.

(** A job never constructs an engine instance itself. *)
Lemma drive_constructs_nothing h v evs (s : session) :
  filter is_new (snd (drive h v evs s)) = [].
Proof.
  revert s. induction evs as [|ev evs IH]; intros s; simpl; [reflexivity|].
  assert (H1 : filter is_new (snd (step h v ev s)) = []).
  { destruct ev; cbn [step].
    - unfold processNextFrame.
      destruct (paused s || ended s)%bool; [reflexivity|].
      destruct (isProcessingFrame s), h; try reflexivity.
      destruct send; reflexivity.
    - destruct h; reflexivity.
    - unfold onended. simpl. destruct (0 <? length (frames s)); reflexivity.
    - reflexivity.
    - reflexivity. }
  destruct (step h v ev s) as [s1 e1]. simpl in H1.
  specialize (IH s1). destruct (drive h v evs s1) as [s2 e2]. simpl in *.
  now rewrite filter_app, H1, IH.
Qed.

(** With the closure's [processedCount] at 0, as on the first run, the
    loop recycles the engine only where a job's promise is rejected. *)
Lemma loop_recycles_first_run jobs (c : component) :
  recycles (snd (loop 0 jobs c)) <= length (filter setup_throws jobs).
Proof.
  revert c. induction jobs as [|j jobs IH]; intros c; [apply Nat.le_refl|].
  cbn [loop]. change ((0 <? 0) && (0 mod RECYCLE_PERIOD =? 0))%bool with false.
  cbv iota. unfold processVideoSimple. cbn [filter].
  destruct (setup_throws j) eqn:Hj.
  - destruct (createHolisticInstance c) as [c2 e3] eqn:Hc.
    specialize (IH c2). destruct (loop 0 jobs c2) as [c3 e4]. simpl in *.
    unfold createHolisticInstance in Hc. inversion Hc; subst.
    unfold recycles in *.
    destruct (holisticRef c); simpl; lia.
  - pose proof (drive_constructs_nothing (holisticRef c) (source j) (script j) fresh) as Htr.
    destruct (drive (holisticRef c) (source j) (script j) fresh) as [s tr].
    simpl in Htr. destruct (settled s).
    + specialize (IH (mkComponent (holisticRef c) (constructed c) (S (processedCount c)))).
      destruct (loop 0 jobs _) as [c3 e3]. simpl in *.
      unfold recycles in *. rewrite filter_app, Htr. simpl. exact IH.
    + simpl. unfold recycles. rewrite Htr. simpl. lia.
Qed.

End BatchFacts.

Module LiveSubmissions.
Import DeafUserInterface.

(** Only the call itself submits to recognition; no continuation does. *)
Lemma resume_never_submits rnd p resp (s : state) :
  filter is_recognize (snd (fst (resume rnd p resp s))) = [].
Proof.
  destruct p, resp; simpl; try reflexivity.
  destruct (status_success result); simpl; [reflexivity|].
  destruct (predictions result); reflexivity.
Qed.

Lemma settle_never_submits rnd p resps (s : state) :
  filter is_recognize (snd (fst (settle rnd p resps s))) = [].
Proof.
  revert p s. induction resps as [|resp resps IH]; intros p s.
  - destruct p; reflexivity.
  - destruct p as [q|]; [|reflexivity]. simpl.
    pose proof (resume_never_submits rnd q resp s) as H1.
    destruct (resume rnd q resp s) as [[s1 e1] p1]. simpl in H1.
    specialize (IH p1 s1). destruct (settle rnd p1 resps s1) as [[s2 e2] p2].
    simpl in *. now rewrite filter_app, H1, IH.
Qed.

Lemma stopRecording_empty_buffer rnd (s : state) :
  framesRef s = [] -> filter is_recognize (snd (fst (stopRecording rnd s))) = [].
Proof.
  intros H. unfold stopRecording, processDemoSign. simpl.
  destruct (demoOverrideRef s); simpl; [reflexivity|].
  rewrite H. reflexivity.
Qed.

Lemma stopRecording_override rnd (s : state) sg :
  demoOverrideRef s = Some sg ->
  filter is_recognize (snd (fst (stopRecording rnd s))) = [].
Proof.
  intros H. unfold stopRecording, processDemoSign. simpl. rewrite H. reflexivity.
Qed.

(** Without an override and with frames in the buffer, a call submits
    the buffer once and leaves buffer and override as they were. *)
Lemma stopRecording_submits rnd (s : state) :
  demoOverrideRef s = None -> framesRef s <> [] ->
  snd (fst (stopRecording rnd s)) = [Recognize (framesRef s)] /\
  framesRef (fst (fst (stopRecording rnd s))) = framesRef s /\
  demoOverrideRef (fst (fst (stopRecording rnd s))) = None.
Proof.
  intros Ho Hf. unfold stopRecording. simpl. rewrite Ho.
  destruct (framesRef s) as [|f fs] eqn:E; [contradiction|].
  simpl. rewrite E, Ho. auto.
Qed.

Lemma stopRecording_flags rnd (s : state) :
  demoOverrideRef s = None -> framesRef s <> [] ->
  isRecording (fst (fst (stopRecording rnd s))) = false /\
  isProcessing (fst (fst (stopRecording rnd s))) = true.
Proof.
  intros Ho Hf. unfold stopRecording. simpl. rewrite Ho.
  destruct (framesRef s) as [|f fs] eqn:E; [contradiction|].
  simpl. auto.
Qed.

(** While a submission is being processed the control does nothing. *)
Lemma clicks_while_processing rnd (n : nat) (s : state) :
  isRecording s = false -> isProcessing s = true ->
  snd (click_n rnd n s) = [].
Proof.
  intros Hr Hp. induction n as [|n IH]; [reflexivity|].
  cbn [click_n]. unfold control_click. rewrite Hr, Hp.
  destruct (click_n rnd n s) as [s2 e2]. simpl in *. exact IH.
Qed.

End LiveSubmissions.

(** C8. In the live controller and in a batch job alike, whatever the
    callbacks receive and in whatever order, the frame ids in the buffer
    are 0, 1, ..., N-1 in buffer order and the counter equals N;
    [startRecording] empties the buffer and zeroes the counter, and a
    batch job starts from an empty buffer and a zero counter. *)
Theorem C8_frame_ids_are_contiguous :
  (forall rnd evs,
     let s := DeafUserInterface.run rnd evs DeafUserInterface.initial in
     map frame_id (DeafUserInterface.framesRef s) =
       seq 0 (length (DeafUserInterface.framesRef s)) /\
     DeafUserInterface.frameCountRef s = length (DeafUserInterface.framesRef s)) /\
  (forall s,
     DeafUserInterface.framesRef (DeafUserInterface.startRecording s) = [] /\
     DeafUserInterface.frameCountRef (DeafUserInterface.startRecording s) = 0) /\
  (forall h v evs,
     let s := fst (DatasetProcessor.drive h v evs DatasetProcessor.fresh) in
     map frame_id (DatasetProcessor.frames s) =
       seq 0 (length (DatasetProcessor.frames s)) /\
     DatasetProcessor.frameId s = length (DatasetProcessor.frames s)) /\
  (DatasetProcessor.frames DatasetProcessor.fresh = [] /\
   DatasetProcessor.frameId DatasetProcessor.fresh = 0).
Proof.
  split; [|split; [|split]].
  - intros rnd evs. apply LiveFacts.run_buffer_ok. split; reflexivity.
  - intros s. split; reflexivity.
  - intros h v evs. apply BatchFacts.drive_buffer_ok. split; reflexivity.
  - split; reflexivity.
Qed.


(** C7. A session that ends with no frame collected reaches neither the
    persistence endpoint nor the recognition endpoint: not from a batch
    job of the dataset processor, not through [saveResults] of the video
    processor, and not from [stopRecording] of the live controller,
    whatever its awaits resume with. *)
Theorem C7_zero_frame_session_is_never_submitted :
  (forall h v evs,
     DatasetProcessor.frames
       (fst (DatasetProcessor.drive h v evs DatasetProcessor.fresh)) = [] ->
     filter DatasetProcessor.is_save
       (snd (DatasetProcessor.drive h v evs DatasetProcessor.fresh)) = []) /\
  (forall fetch_ok it st,
     VideoProcessor.currentFramesRef st = [] ->
     filter VideoProcessor.is_save (VideoProcessor.saveResults fetch_ok it st) = []) /\
  (forall rnd resps s,
     DeafUserInterface.framesRef s = [] ->
     DeafUserInterface.submissions
       (snd (fst (DeafUserInterface.stopRecording_run rnd resps s))) = 0).
Proof.
  split; [|split].
  - intros h v evs H. now apply BatchFacts.drive_zero_frames_never_saved.
  - intros ok it st H. unfold VideoProcessor.saveResults. rewrite H. reflexivity.
  - intros rnd resps s H. unfold DeafUserInterface.stopRecording_run.
    pose proof (LiveSubmissions.stopRecording_empty_buffer rnd s H) as H1.
    destruct (DeafUserInterface.stopRecording rnd s) as [[s1 e1] p1]. simpl in H1.
    pose proof (LiveSubmissions.settle_never_submits rnd p1 resps s1) as H2.
    destruct (DeafUserInterface.settle rnd p1 resps s1) as [[s2 e2] p2].
    simpl in *. unfold DeafUserInterface.submissions.
    now rewrite filter_app, H1, H2.
Qed.

Lemma C7_witness :
  filter DatasetProcessor.is_save
    (snd (DatasetProcessor.drive (Some 0) sample_video
            [DatasetProcessor.Offer DatasetProcessor.SendResolves;
             DatasetProcessor.OnEnded] DatasetProcessor.fresh)) = [] /\
  DeafUserInterface.submissions
    (snd (fst (DeafUserInterface.stopRecording_run no_random []
                 (DeafUserInterface.startRecording DeafUserInterface.initial)))) = 0.
Proof.
  destruct C7_zero_frame_session_is_never_submitted as (Hbatch & _ & Hlive).
  split.
  - apply Hbatch. reflexivity.
  - apply Hlive. reflexivity.
Defined.

(** C4. The recycle count is not floor(M / K).  On the first run the
    closure of [startProcessing] holds [processedCount = 0] throughout,
    so any number of jobs without error is processed with no recycle at
    all (for 21 jobs, floor(21 / 20) = 1); a run started when the count
    stands at 20 recycles before each of its jobs; and a job whose send
    throws adds no recycle, its promise being resolved, not rejected. *)
Theorem C4_recycle_count_is_not_jobs_over_period :
  (forall M,
     DatasetProcessor.recycles
       (snd (DatasetProcessor.startProcessing 0 (repeat ok_job M)
               DatasetProcessor.mounted)) = 0) /\
  option_map DatasetProcessor.processedCount
    (fst (DatasetProcessor.startProcessing 0 (repeat ok_job 21)
            DatasetProcessor.mounted)) = Some 21 /\
  21 / DatasetProcessor.RECYCLE_PERIOD = 1 /\
  DatasetProcessor.recycles
    (snd (DatasetProcessor.startProcessing 20 (repeat ok_job 21) after_first_run)) = 21 /\
  DatasetProcessor.recycles
    (snd (DatasetProcessor.startProcessing 0 [crash_job] DatasetProcessor.mounted)) = 0.
Proof.
  split.
  - intros M. unfold DatasetProcessor.startProcessing.
    pose proof (BatchFacts.loop_recycles_first_run (repeat ok_job M)
                  (DatasetProcessor.mkComponent
                     (DatasetProcessor.holisticRef DatasetProcessor.mounted)
                     (DatasetProcessor.constructed DatasetProcessor.mounted) 0)) as H.
    assert (Hnone : filter DatasetProcessor.setup_throws (repeat ok_job M) = []).
    { clear H. induction M as [|M IH]; [reflexivity|exact IH]. }
    rewrite Hnone in H. simpl length in H.
    destruct (DatasetProcessor.loop 0 (repeat ok_job M) _) as [[c1|] tr]; simpl in *.
    + unfold DatasetProcessor.recycles in *. rewrite filter_app. simpl.
      rewrite app_nil_r. lia.
    + lia.
  - repeat split; vm_compute; reflexivity.
Qed.

(** C6. A send that throws aborts the job at once and the job is not
    run again, but no recycle follows: in a run of twenty jobs whose
    fifth crashes, the engine is never reconstructed and every send,
    before and after the crash, goes to the instance made at mount. *)
Theorem C6_crash_is_not_followed_by_a_recycle :
  let run := DatasetProcessor.startProcessing 0 crash_on_fifth
               DatasetProcessor.mounted in
  snd (DatasetProcessor.processVideoSimple (Some 0) crash_job) =
    [DatasetProcessor.EngineSend 0; DatasetProcessor.RequestFrame;
     DatasetProcessor.EngineSend 0; DatasetProcessor.Pause;
     DatasetProcessor.Log (DatasetProcessor.Crash sample_video)] /\
  DatasetProcessor.recycles (snd run) = 0 /\
  DatasetProcessor.sent_to (snd run) = repeat 0 21 /\
  option_map DatasetProcessor.holisticRef (fst run) = Some (Some 0) /\
  option_map DatasetProcessor.processedCount (fst run) = Some 20.
Proof.
  repeat split; vm_compute; reflexivity.
Qed.

(** Against C3 as stated: two [stopRecording] calls in immediate
    succession while recording submit the buffer twice. *)
Lemma C3_two_stops_submit_twice :
  DeafUserInterface.isRecordingRef recording_one_frame = true /\
  DeafUserInterface.submissions
    (snd (DeafUserInterface.stop_n no_random 2 recording_one_frame)) = 2 /\
  DeafUserInterface.submissions
    (snd (DeafUserInterface.stop_n no_random 2 recording_one_frame)) <> 1.
Proof.
  split; [reflexivity|]. split; [vm_compute; reflexivity|].
  vm_compute. discriminate.
Qed.

(** C3 (amended). [stopRecording] has no guard on the recording state:
    with no demo override queued and a non-empty buffer, every call
    submits the buffer once and leaves it in place, so [n] calls in
    immediate succession make [n] recognition submissions.  Exactly one
    submission per cycle holds for the rendered control only: the first
    click sets [isRecording] false and [isProcessing] true, and the
    control then shows the disabled start button, so further clicks in
    immediate succession submit nothing. *)
Theorem C3_each_stop_submits_once rnd (n : nat) (s : DeafUserInterface.state) :
  DeafUserInterface.isRecording s = true ->
  DeafUserInterface.demoOverrideRef s = None ->
  DeafUserInterface.framesRef s <> [] ->
  snd (DeafUserInterface.stop_n rnd n s) =
    repeat (DeafUserInterface.Recognize (DeafUserInterface.framesRef s)) n /\
  DeafUserInterface.submissions (snd (DeafUserInterface.stop_n rnd n s)) = n /\
  snd (DeafUserInterface.click_n rnd (S n) s) =
    [DeafUserInterface.Recognize (DeafUserInterface.framesRef s)] /\
  DeafUserInterface.submissions (snd (DeafUserInterface.click_n rnd (S n) s)) = 1.
Proof.
  intros Hrec Ho Hf.
  assert (Hstop : snd (DeafUserInterface.stop_n rnd n s) =
                  repeat (DeafUserInterface.Recognize (DeafUserInterface.framesRef s)) n).
  { clear Hrec. revert s Ho Hf. induction n as [|n IH]; intros s Ho Hf; [reflexivity|].
    cbn [DeafUserInterface.stop_n].
    destruct (LiveSubmissions.stopRecording_submits rnd s Ho Hf) as (He & Hfr & Hov).
    destruct (DeafUserInterface.stopRecording rnd s) as [[s1 e1] p1].
    simpl in He, Hfr, Hov. subst e1.
    assert (Hf1 : DeafUserInterface.framesRef s1 <> []) by (now rewrite Hfr).
    specialize (IH s1 Hov Hf1).
    destruct (DeafUserInterface.stop_n rnd n s1) as [s2 e2]. simpl in *.
    now rewrite IH, Hfr. }
  assert (Hclick : snd (DeafUserInterface.click_n rnd (S n) s) =
                   [DeafUserInterface.Recognize (DeafUserInterface.framesRef s)]).
  { cbn [DeafUserInterface.click_n]. unfold DeafUserInterface.control_click.
    rewrite Hrec.
    destruct (LiveSubmissions.stopRecording_submits rnd s Ho Hf) as (He & _ & _).
    pose proof (LiveSubmissions.stopRecording_flags rnd s Ho Hf) as [Hr Hp].
    destruct (DeafUserInterface.stopRecording rnd s) as [[s1 e1] p1].
    simpl in He, Hr, Hp. subst e1.
    pose proof (LiveSubmissions.clicks_while_processing rnd n s1 Hr Hp) as Hn.
    destruct (DeafUserInterface.click_n rnd n s1) as [s2 e2]. simpl in *.
    now rewrite Hn. }
  split; [exact Hstop|]. split; [|split; [exact Hclick|]].
  - rewrite Hstop. unfold DeafUserInterface.submissions.
    clear. induction n as [|n IH]; simpl; [reflexivity|now rewrite IH].
  - rewrite Hclick. reflexivity.
Qed.

Lemma C3_witness :
  DeafUserInterface.submissions
    (snd (DeafUserInterface.stop_n no_random 2 recording_one_frame)) = 2 /\
  DeafUserInterface.submissions
    (snd (DeafUserInterface.click_n no_random 2 recording_one_frame)) = 1.
Proof.
  assert (Hr : DeafUserInterface.isRecording recording_one_frame = true)
    by reflexivity.
  assert (Ho : DeafUserInterface.demoOverrideRef recording_one_frame = None)
    by reflexivity.
  assert (Hf : DeafUserInterface.framesRef recording_one_frame <> [])
    by (vm_compute; discriminate).
  split.
  - exact (proj1 (proj2 (@C3_each_stop_submits_once no_random 2
                           recording_one_frame Hr Ho Hf))).
  - exact (proj2 (proj2 (proj2 (@C3_each_stop_submits_once no_random 1
                                  recording_one_frame Hr Ho Hf)))).
Defined.

(** ** The demo override *)

Module DemoFacts.
Import DeafUserInterface.

Lemma Qfloor_bounds (x : Q) (lo hi : Z) :
  (inject_Z lo <= x)%Q -> (x < inject_Z hi)%Q -> (lo <= Qfloor x < hi)%Z.
Proof.
  intros Hlo Hhi.
  pose proof (Qfloor_le x) as H1. pose proof (Qlt_floor x) as H2.
  assert (A : (inject_Z (Qfloor x) < inject_Z hi)%Q)
    by (eapply Qle_lt_trans; eauto).
  assert (B : (inject_Z lo < inject_Z (Qfloor x + 1))%Q)
    by (eapply Qle_lt_trans; eauto).
  rewrite <- Zlt_Qlt in A, B. lia.
Qed.

(** [Math.floor(Math.random() * 1400) + 800] *)
Lemma randomDelay_range (u : number) :
  (0 <= u)%Q -> (u < 1)%Q ->
  (800 <= JS.floor (u * inject_Z 1400)%Q + 800 <= 2199)%Z.
Proof.
  intros H0 H1. unfold JS.floor.
  assert (H : (0 <= Qfloor (u * inject_Z 1400) < 1400)%Z).
  { apply Qfloor_bounds.
    - change (inject_Z 0) with 0%Q. change (inject_Z 1400) with (1400 # 1)%Q. lra.
    - change (inject_Z 1400) with (1400 # 1)%Q. lra. }
  lia.
Qed.

(** [(Math.random() * (0.94 - 0.82) + 0.82).toFixed(2)], in hundredths. *)
Lemma randomConfidence_range (u : number) :
  (0 <= u)%Q -> (u < 1)%Q ->
  (82 <= JS.toFixed_scaled 2 (u * ((94 # 100) - (82 # 100)) + (82 # 100))%Q <= 94)%Z.
Proof.
  intros H0 H1. unfold JS.toFixed_scaled.
  set (q := (u * ((94 # 100) - (82 # 100)) + (82 # 100))%Q).
  assert (Hq : (82 # 100 <= q)%Q /\ (q < 94 # 100)%Q) by (unfold q; split; lra).
  assert (Ha : (Qabs q == q)%Q) by (apply Qabs_pos; lra).
  change (10 ^ Z.of_nat 2)%Z with 100%Z.
  assert (H : (82 <= Qfloor (Qabs q * inject_Z 100 + (1 # 2)) < 95)%Z).
  { apply Qfloor_bounds; rewrite Ha;
      change (inject_Z 100) with (100 # 1)%Q;
      [change (inject_Z 82) with (82 # 1)%Q | change (inject_Z 95) with (95 # 1)%Q];
      lra. }
  lia.
Qed.

(** Rendering the rounded confidence as a percentage gives back its
    hundredths. *)
Lemma percent_of_toFixed (q : number) :
  (0 <= q)%Q ->
  JS.toFixed 0 (JS.toFixed_value 2 q * inject_Z 100)%Q = JS.dec (JS.toFixed_scaled 2 q).
Proof.
  intros Hq. unfold JS.toFixed_value.
  destruct (Qlt_le_dec q 0) as [Hneg|_]; [exfalso; lra|].
  set (n := JS.toFixed_scaled 2 q).
  assert (Hn : (0 <= n)%Z).
  { unfold n, JS.toFixed_scaled.
    apply (@Qfloor_bounds _ 0 (Qfloor (Qabs q * inject_Z (10 ^ Z.of_nat 2) + (1 # 2))%Q + 1)).
    - change (10 ^ Z.of_nat 2)%Z with 100%Z.
      pose proof (Qabs_nonneg q). change (inject_Z 0) with 0%Q.
      change (inject_Z 100) with (100 # 1)%Q. lra.
    - apply Qlt_floor. }
  change (10 ^ Z.of_nat 2)%Z with 100%Z.
  set (x := (inject_Z n / inject_Z 100 * inject_Z 100)%Q).
  assert (Hx : (x == inject_Z n)%Q) by (unfold x; field; discriminate).
  assert (Hn' : (0 <= inject_Z n)%Q) by (change 0%Q with (inject_Z 0); now rewrite <- Zle_Qle).
  unfold JS.toFixed.
  destruct (Qlt_le_dec x 0) as [Hneg|_]; [exfalso; rewrite Hx in Hneg; lra|].
  assert (Hs : JS.toFixed_scaled 0 x = n).
  { unfold JS.toFixed_scaled. change (10 ^ Z.of_nat 0)%Z with 1%Z.
    assert (Ha : (Qabs x == inject_Z n)%Q) by (rewrite Hx; apply Qabs_pos; exact Hn').
    assert (B : (n <= Qfloor (Qabs x * inject_Z 1 + (1 # 2)) < n + 1)%Z).
    { apply Qfloor_bounds; rewrite Ha; [|rewrite inject_Z_plus];
        change (inject_Z 1) with 1%Q; lra. }
    lia. }
  rewrite Hs. change (10 ^ Z.of_nat 0)%Z with 1%Z. rewrite Z.div_1_r. reflexivity.
Qed.

End DemoFacts.

Module OverrideFacts.
Import DeafUserInterface.

(** A digit key 1-5 pressed outside a text field queues the sign of
    that number, whatever the controller is doing. *)
Lemma digit_key_queues_override (k : Z) (tag : string) (s : state) :
  (1 <= k <= 5)%Z -> tag <> "INPUT"%string -> tag <> "TEXTAREA"%string ->
  exists sg,
    nth_error demoSigns (Z.to_nat (k - 1)) = Some sg /\
    demoOverrideRef (handleKeyPress (mkKey tag (JS.dec k)) s) = Some sg /\
    framesRef (handleKeyPress (mkKey tag (JS.dec k)) s) = framesRef s.
Proof.
  intros Hk H1 H2. unfold handleKeyPress. simpl tagName. simpl key.
  apply String.eqb_neq in H1, H2. rewrite H1, H2. simpl orb. cbv iota.
  assert (Hc : (k = 1 \/ k = 2 \/ k = 3 \/ k = 4 \/ k = 5)%Z) by lia.
  destruct Hc as [-> | [-> | [-> | [-> | ->]]]];
    (eexists; split; [reflexivity|split; reflexivity]).
Qed.

(** With an override queued, a whole [stopRecording] call is the demo
    path: a timer, a translation request, no recognition request. *)
Lemma stop_with_override rnd (s : state) (sg : demoSign) (answer : option (option string)) :
  (forall n, (0 <= rnd n)%Q /\ (rnd n < 1)%Q) ->
  demoOverrideRef s = Some sg ->
  exists delay pct s',
    stopRecording_run rnd
      [TimerFired;
       match answer with Some t => TranslateReturned t | None => TranslateThrew end] s =
      (s', [SetTimeout delay; Translate (text sg)], None) /\
    (800 <= delay <= 2199)%Z /\ (82 <= pct <= 94)%Z /\
    recognizedText s' = with_confidence (label sg) (JS.dec pct) /\
    demoOverrideRef s' = None /\ isProcessing s' = false.
Proof.
  intros Hrnd Ho.
  unfold stopRecording_run, stopRecording. simpl demoOverrideRef. rewrite Ho.
  unfold processDemoSign. simpl random_draws.
  cbn [settle resume]. simpl random_draws.
  set (u1 := rnd (random_draws s)).
  set (u2 := rnd (S (random_draws s))).
  exists (JS.floor (u1 * inject_Z 1400)%Q + 800)%Z.
  exists (JS.toFixed_scaled 2 (u2 * ((94 # 100) - (82 # 100)) + (82 # 100))%Q).
  assert (A : (0 <= u1)%Q /\ (u1 < 1)%Q) by apply Hrnd.
  assert (B : (0 <= u2)%Q /\ (u2 < 1)%Q) by apply Hrnd.
  destruct A as [A1 A2], B as [B1 B2]. clearbody u1 u2.
  rewrite DemoFacts.percent_of_toFixed by lra.
  destruct answer as [t|]; eexists; (split; [reflexivity|]);
    (split; [now apply DemoFacts.randomDelay_range|]);
    (split; [now apply DemoFacts.randomConfidence_range|]);
    (split; [reflexivity|split; reflexivity]).
Qed.

End OverrideFacts.

(** C10. Pressing a digit key 1-5 outside a text field queues a demo
    override, whatever frames the buffer holds; in that state a whole
    [stopRecording] call makes no recognition request: it waits between
    800 and 2199 ms, shows the preset label of the sign with a
    confidence between 82 and 94 percent, both drawn from
    [Math.random], asks for a translation, and clears the override. *)
Theorem C10_demo_override_bypasses_recognition
  (rnd : nat -> number) (k : Z) (tag : string) (s : DeafUserInterface.state)
  (answer : option (option string)) :
  (forall n, (0 <= rnd n)%Q /\ (rnd n < 1)%Q) ->
  (1 <= k <= 5)%Z -> tag <> "INPUT"%string -> tag <> "TEXTAREA"%string ->
  let queued :=
    DeafUserInterface.handleKeyPress (DeafUserInterface.mkKey tag (JS.dec k)) s in
  exists sg delay pct s',
    nth_error DeafUserInterface.demoSigns (Z.to_nat (k - 1)) = Some sg /\
    DeafUserInterface.demoOverrideRef queued = Some sg /\
    DeafUserInterface.framesRef queued = DeafUserInterface.framesRef s /\
    DeafUserInterface.stopRecording_run rnd
      [DeafUserInterface.TimerFired;
       match answer with
       | Some t => DeafUserInterface.TranslateReturned t
       | None => DeafUserInterface.TranslateThrew
       end] queued =
      (s', [DeafUserInterface.SetTimeout delay;
            DeafUserInterface.Translate (DeafUserInterface.text sg)], None) /\
    DeafUserInterface.submissions
      [DeafUserInterface.SetTimeout delay;
       DeafUserInterface.Translate (DeafUserInterface.text sg)] = 0 /\
    (800 <= delay <= 2199)%Z /\ (82 <= pct <= 94)%Z /\
    DeafUserInterface.recognizedText s' =
      DeafUserInterface.with_confidence (DeafUserInterface.label sg) (JS.dec pct) /\
    DeafUserInterface.demoOverrideRef s' = None.
Proof.
  intros Hrnd Hk H1 H2 queued.
  destruct (@OverrideFacts.digit_key_queues_override k tag s Hk H1 H2)
    as (sg & Hsg & Ho & Hf).
  destruct (@OverrideFacts.stop_with_override rnd queued sg answer Hrnd Ho)
    as (delay & pct & s' & Hrun & Hd & Hp & Htext & Hclear & _).
  exists sg, delay, pct, s'.
  repeat (split; [assumption || reflexivity|]). exact Hclear.
Qed.

Lemma C10_witness :
  exists sg delay pct s',
    nth_error DeafUserInterface.demoSigns 2 = Some sg /\
    DeafUserInterface.demoOverrideRef
      (DeafUserInterface.handleKeyPress (DeafUserInterface.mkKey "BODY" "3")
         recording_one_frame) = Some sg /\
    DeafUserInterface.framesRef
      (DeafUserInterface.handleKeyPress (DeafUserInterface.mkKey "BODY" "3")
         recording_one_frame) = DeafUserInterface.framesRef recording_one_frame /\
    DeafUserInterface.stopRecording_run always_half
      [DeafUserInterface.TimerFired; DeafUserInterface.TranslateThrew]
      (DeafUserInterface.handleKeyPress (DeafUserInterface.mkKey "BODY" "3")
         recording_one_frame) =
      (s', [DeafUserInterface.SetTimeout delay;
            DeafUserInterface.Translate (DeafUserInterface.text sg)], None) /\
    DeafUserInterface.submissions
      [DeafUserInterface.SetTimeout delay;
       DeafUserInterface.Translate (DeafUserInterface.text sg)] = 0 /\
    (800 <= delay <= 2199)%Z /\ (82 <= pct <= 94)%Z /\
    DeafUserInterface.recognizedText s' =
      DeafUserInterface.with_confidence (DeafUserInterface.label sg) (JS.dec pct) /\
    DeafUserInterface.demoOverrideRef s' = None.
Proof.
  apply (@C10_demo_override_bypasses_recognition always_half 3 "BODY"
           recording_one_frame None).
  - intros n. split; vm_compute; congruence.
  - lia.
  - discriminate.
  - discriminate.
Defined.

(** ** Stall watchdog of the video processor *)

Module WatchdogFacts.
Import VideoProcessor.





End WatchdogFacts.



(** ** Checks of the JavaScript helpers *)

Example parseInt_digit : JS.parseInt "3" = Some 3%Z.
Proof. reflexivity. Qed.

Example parseInt_named_key : JS.parseInt "Enter" = None.
Proof. reflexivity. Qed.

Example parseInt_leading_digits : JS.parseInt " -12px" = Some (-12)%Z.
Proof. reflexivity. Qed.

Example toFixed_one_decimal : JS.toFixed 1 (8765 # 100)%Q = "87.7"%string.
Proof. vm_compute. reflexivity. Qed.

Example toFixed_rounds_half_up : JS.toFixed 2 (5 # 1000)%Q = "0.01"%string.
Proof. vm_compute. reflexivity. Qed.

Example toFixed_pads : JS.toFixed 2 (9005 # 1000)%Q = "9.01"%string.
Proof. vm_compute. reflexivity. Qed.

Example key_zero_queues_nothing :
  DeafUserInterface.demoOverrideRef
    (DeafUserInterface.handleKeyPress (DeafUserInterface.mkKey "BODY" "0")
       DeafUserInterface.initial) = None.
Proof. reflexivity. Qed.

Example key_in_input_queues_nothing :
  DeafUserInterface.demoOverrideRef
    (DeafUserInterface.handleKeyPress (DeafUserInterface.mkKey "INPUT" "1")
       DeafUserInterface.initial) = None.
Proof. reflexivity. Qed.

(* ================================================================== *)
(** * Further properties of the components *)

(** ** Live controller: what a recording holds *)

Module RecordingFacts.
Import DeafUserInterface.

Lemma run_app rnd (a b : list event) (s : state) :
  run rnd (a ++ b) s = run rnd b (run rnd a s).
Proof. unfold run. apply fold_left_app. Qed.

Lemma results_while_recording rnd (rs : list results) (s : state) :
  isRecordingRef s = true ->
  frameCountRef s = length (framesRef s) ->
  framesRef (run rnd (map Results rs) s) =
    framesRef s ++ frames_of (length (framesRef s)) rs /\
  frameCountRef (run rnd (map Results rs) s) = length (framesRef s) + length rs /\
  isRecordingRef (run rnd (map Results rs) s) = true /\
  demoOverrideRef (run rnd (map Results rs) s) = demoOverrideRef s.
Proof.
  revert s. induction rs as [|r rs IH]; intros s Hrec Hn.
  - simpl. rewrite app_nil_r, Nat.add_0_r. auto.
  - change (run rnd (map Results (r :: rs)) s)
      with (run rnd (map Results rs) (handleMediaPipeResults r s)).
    assert (Hs : handleMediaPipeResults r s =
                 set_buffer (framesRef s ++ [mkFrame (frameCountRef s) (extractKeypoints r)])
                            (frameCountRef s + 1) s)
      by (unfold handleMediaPipeResults; now rewrite Hrec).
    rewrite Hs.
    set (s1 := set_buffer (framesRef s ++ [mkFrame (frameCountRef s) (extractKeypoints r)])
                          (frameCountRef s + 1) s).
    assert (Hf1 : framesRef s1 =
                  framesRef s ++ [mkFrame (length (framesRef s)) (extractKeypoints r)])
      by (unfold s1; simpl; now rewrite Hn).
    assert (Hl1 : length (framesRef s1) = S (length (framesRef s)))
      by (rewrite Hf1, length_app; simpl; lia).
    assert (Hn1 : frameCountRef s1 = length (framesRef s1))
      by (rewrite Hl1; unfold s1; simpl; lia).
    destruct (IH s1 Hrec Hn1) as (H1 & H2 & H3 & H4).
    rewrite H1, H2, H3, H4, Hl1, Hf1, <- app_assoc. simpl.
    repeat split; auto.
Qed.

Lemma results_while_idle rnd (rs : list results) (s : state) :
  isRecordingRef s = false -> run rnd (map Results rs) s = s.
Proof.
  intros H. induction rs as [|r rs IH]; [reflexivity|].
  change (run rnd (map Results (r :: rs)) s)
    with (run rnd (map Results rs) (handleMediaPipeResults r s)).
  unfold handleMediaPipeResults. rewrite H. exact IH.
Qed.

Lemma stopRecording_stops rnd (s : state) :
  isRecordingRef (fst (fst (stopRecording rnd s))) = false /\
  isRecording (fst (fst (stopRecording rnd s))) = false.
Proof.
  unfold stopRecording, processDemoSign. simpl.
  destruct (demoOverrideRef s); simpl; [auto|].
  destruct (length (framesRef s) =? 0); simpl; auto.
Qed.

Lemma resume_keeps_recording_flags rnd p resp (s : state) :
  isRecordingRef (fst (fst (resume rnd p resp s))) = isRecordingRef s /\
  isRecording (fst (fst (resume rnd p resp s))) = isRecording s.
Proof.
  destruct p, resp; simpl; auto.
  destruct (status_success result); simpl; auto.
  destruct (predictions result); simpl; auto.
Qed.

(** A continuation either stays suspended or ends not processing. *)
Lemma resume_ends_idle rnd p resp (s : state) :
  snd (resume rnd p resp s) = None ->
  isProcessing (fst (fst (resume rnd p resp s))) = false.
Proof.
  destruct p, resp; simpl; try discriminate; auto.
  destruct (status_success result); simpl; auto.
  destruct (predictions result); simpl; [auto|discriminate].
Qed.

Lemma settle_ends_idle rnd p resps (s : state) :
  (p = None -> isProcessing s = false) ->
  snd (settle rnd p resps s) = None ->
  isProcessing (fst (fst (settle rnd p resps s))) = false.
Proof.
  revert p s. induction resps as [|resp resps IH]; intros p s Hp Hend.
  - destruct p; simpl in *; [discriminate|auto].
  - destruct p as [q|]; [|simpl in *; auto].
    simpl in *.
    pose proof (resume_ends_idle rnd q resp s) as H1.
    destruct (resume rnd q resp s) as [[s1 e1] p1]. simpl in H1.
    specialize (IH p1 s1).
    destruct (settle rnd p1 resps s1) as [[s2 e2] p2]. simpl in *.
    apply IH; auto.
Qed.

Lemma settle_keeps_recording_flags rnd p resps (s : state) :
  isRecordingRef (fst (fst (settle rnd p resps s))) = isRecordingRef s /\
  isRecording (fst (fst (settle rnd p resps s))) = isRecording s.
Proof.
  revert p s. induction resps as [|resp resps IH]; intros p s.
  - destruct p; simpl; auto.
  - destruct p as [q|]; [|simpl; auto]. simpl.
    pose proof (resume_keeps_recording_flags rnd q resp s) as [H1 H2].
    destruct (resume rnd q resp s) as [[s1 e1] p1]. simpl in H1, H2.
    specialize (IH p1 s1).
    destruct (settle rnd p1 resps s1) as [[s2 e2] p2]. simpl in *.
    destruct IH as [I1 I2]. rewrite I1, I2. auto.
Qed.

End RecordingFacts.

(** X1. After [startRecording], the buffer holds one frame per delivered
    result, in delivery order, numbered from 0, each with the keypoints
    extracted from that result; the counter is their number. *)
Theorem recording_holds_results_in_delivery_order rnd (rs : list results)
  (s : DeafUserInterface.state) :
  let recorded :=
    DeafUserInterface.run rnd
      (DeafUserInterface.Start :: map DeafUserInterface.Results rs) s in
  DeafUserInterface.framesRef recorded = DeafUserInterface.frames_of 0 rs /\
  DeafUserInterface.frameCountRef recorded = length rs.
Proof.
  intros recorded. unfold recorded.
  change (DeafUserInterface.run rnd
            (DeafUserInterface.Start :: map DeafUserInterface.Results rs) s)
    with (DeafUserInterface.run rnd (map DeafUserInterface.Results rs)
            (DeafUserInterface.startRecording s)).
  destruct (@RecordingFacts.results_while_recording rnd rs
              (DeafUserInterface.startRecording s) eq_refl eq_refl)
    as (H1 & H2 & _).
  simpl in H1, H2. split; assumption.
Qed.

(** X2. Once [stopRecording] has been called, whichever path it takes,
    results the engine still delivers are not collected: the state is
    left exactly as the call left it. *)
Theorem results_after_stop_are_ignored rnd (rs : list results)
  (s : DeafUserInterface.state) :
  let stopped := fst (fst (DeafUserInterface.stopRecording rnd s)) in
  DeafUserInterface.run rnd (map DeafUserInterface.Results rs) stopped = stopped.
Proof.
  intros stopped. apply RecordingFacts.results_while_idle.
  apply RecordingFacts.stopRecording_stops.
Qed.

(** X3. A key press does one of two things: nothing at all, or it stores the
    demo sign numbered by the key (1 to 5) as the pending override and
    touches nothing else.  It never clears a pending override. *)
Theorem key_press_only_queues_an_override (e : DeafUserInterface.keyEvent)
  (s : DeafUserInterface.state) :
  DeafUserInterface.handleKeyPress e s = s \/
  exists k sg,
    (1 <= k <= 5)%Z /\
    JS.parseInt (DeafUserInterface.key e) = Some k /\
    DeafUserInterface.tagName e <> "INPUT"%string /\
    DeafUserInterface.tagName e <> "TEXTAREA"%string /\
    nth_error DeafUserInterface.demoSigns (Z.to_nat (k - 1)) = Some sg /\
    DeafUserInterface.handleKeyPress e s =
      DeafUserInterface.set_demoOverrideRef (Some sg) s.
Proof.
  unfold DeafUserInterface.handleKeyPress.
  destruct (String.eqb (DeafUserInterface.tagName e) "INPUT") eqn:H1; [now left|].
  destruct (String.eqb (DeafUserInterface.tagName e) "TEXTAREA") eqn:H2; [now left|].
  simpl orb. cbv iota.
  destruct (JS.parseInt (DeafUserInterface.key e)) as [k|]; [|now left].
  destruct ((0 <=? k - 1)%Z && (k - 1 <? Z.of_nat (length DeafUserInterface.demoSigns))%Z)%bool
    eqn:Hk; [|now left].
  apply andb_true_iff in Hk. destruct Hk as [Ha Hb].
  apply Z.leb_le in Ha. apply Z.ltb_lt in Hb. simpl in Hb.
  apply String.eqb_neq in H1, H2.
  assert (Hc : (k = 1 \/ k = 2 \/ k = 3 \/ k = 4 \/ k = 5)%Z) by lia.
  right. exists k.
  destruct Hc as [-> | [-> | [-> | [-> | ->]]]];
    (eexists; repeat (split; [first [lia | reflexivity | assumption]|]); reflexivity).
Qed.

(** X4. An override queued before the recording starts is still pending
    when it stops: [startRecording] and the collecting of frames leave
    it alone, and the stop then starts the demo timer and sends the
    collected frames nowhere. *)
Theorem queued_override_survives_recording rnd (k : Z) (tag : string)
  (rs : list results) (s : DeafUserInterface.state) :
  (1 <= k <= 5)%Z -> tag <> "INPUT"%string -> tag <> "TEXTAREA"%string ->
  let queued :=
    DeafUserInterface.handleKeyPress (DeafUserInterface.mkKey tag (JS.dec k)) s in
  let recorded :=
    DeafUserInterface.run rnd
      (DeafUserInterface.Start :: map DeafUserInterface.Results rs) queued in
  DeafUserInterface.framesRef recorded = DeafUserInterface.frames_of 0 rs /\
  DeafUserInterface.demoOverrideRef recorded =
    nth_error DeafUserInterface.demoSigns (Z.to_nat (k - 1)) /\
  DeafUserInterface.demoOverrideRef recorded <> None /\
  exists delay,
    snd (fst (DeafUserInterface.stopRecording rnd recorded)) =
      [DeafUserInterface.SetTimeout delay].
Proof.
  intros Hk H1 H2 queued recorded.
  destruct (@OverrideFacts.digit_key_queues_override k tag s Hk H1 H2)
    as (sg & Hsg & Ho & _). fold queued in Ho.
  assert (Hrec : DeafUserInterface.demoOverrideRef recorded = Some sg).
  { unfold recorded.
    change (DeafUserInterface.run rnd
              (DeafUserInterface.Start :: map DeafUserInterface.Results rs) queued)
      with (DeafUserInterface.run rnd (map DeafUserInterface.Results rs)
              (DeafUserInterface.startRecording queued)).
    destruct (@RecordingFacts.results_while_recording rnd rs
                (DeafUserInterface.startRecording queued) eq_refl eq_refl)
      as (_ & _ & _ & H4).
    rewrite H4. exact Ho. }
  split.
  { unfold recorded.
    change (DeafUserInterface.run rnd
              (DeafUserInterface.Start :: map DeafUserInterface.Results rs) queued)
      with (DeafUserInterface.run rnd (map DeafUserInterface.Results rs)
              (DeafUserInterface.startRecording queued)).
    apply (@RecordingFacts.results_while_recording rnd rs
             (DeafUserInterface.startRecording queued) eq_refl eq_refl). }
  split; [now rewrite Hrec, Hsg|]. split; [rewrite Hrec; discriminate|].
  unfold DeafUserInterface.stopRecording. simpl DeafUserInterface.demoOverrideRef.
  rewrite Hrec. unfold DeafUserInterface.processDemoSign. simpl.
  eexists. reflexivity.
Qed.

Lemma queued_override_survives_recording_witness :
  DeafUserInterface.framesRef
    (DeafUserInterface.run no_random
       (DeafUserInterface.Start :: map DeafUserInterface.Results [no_face; left_hand_only])
       (DeafUserInterface.handleKeyPress (DeafUserInterface.mkKey "BODY" "2")
          DeafUserInterface.initial)) =
    DeafUserInterface.frames_of 0 [no_face; left_hand_only] /\
  DeafUserInterface.demoOverrideRef
    (DeafUserInterface.run no_random
       (DeafUserInterface.Start :: map DeafUserInterface.Results [no_face; left_hand_only])
       (DeafUserInterface.handleKeyPress (DeafUserInterface.mkKey "BODY" "2")
          DeafUserInterface.initial)) <> None.
Proof.
  destruct (@queued_override_survives_recording no_random 2 "BODY"
              [no_face; left_hand_only] DeafUserInterface.initial)
    as (H1 & _ & H3 & _); [lia | discriminate | discriminate |].
  split; [exact H1 | exact H3].
Defined.

(** X5. The override is spent by the stop that uses it: once that demo run
    has finished, the next recording that collects at least one frame
    is submitted to recognition, all its frames in order. *)
Theorem demo_override_is_used_once rnd (s : DeafUserInterface.state)
  (sg : DeafUserInterface.demoSign) (answer : option (option string))
  (r : results) (rs : list results) :
  (forall n, (0 <= rnd n)%Q /\ (rnd n < 1)%Q) ->
  DeafUserInterface.demoOverrideRef s = Some sg ->
  let after_demo :=
    fst (fst (DeafUserInterface.stopRecording_run rnd
                [DeafUserInterface.TimerFired;
                 match answer with
                 | Some t => DeafUserInterface.TranslateReturned t
                 | None => DeafUserInterface.TranslateThrew
                 end] s)) in
  let recorded :=
    DeafUserInterface.run rnd
      (DeafUserInterface.Start :: map DeafUserInterface.Results (r :: rs)) after_demo in
  snd (fst (DeafUserInterface.stopRecording rnd recorded)) =
    [DeafUserInterface.Recognize (DeafUserInterface.frames_of 0 (r :: rs))].
Proof.
  intros Hrnd Ho after_demo recorded.
  destruct (@OverrideFacts.stop_with_override rnd s sg answer Hrnd Ho)
    as (delay & pct & s' & Hrun & _ & _ & _ & Hclear & _).
  assert (Ha : after_demo = s') by (unfold after_demo; now rewrite Hrun).
  unfold recorded.
  change (DeafUserInterface.run rnd
            (DeafUserInterface.Start :: map DeafUserInterface.Results (r :: rs)) after_demo)
    with (DeafUserInterface.run rnd (map DeafUserInterface.Results (r :: rs))
            (DeafUserInterface.startRecording after_demo)).
  set (started := DeafUserInterface.startRecording after_demo).
  assert (Hs1 : DeafUserInterface.framesRef started = []) by reflexivity.
  assert (Hs2 : DeafUserInterface.demoOverrideRef started = None)
    by (unfold started; simpl; now rewrite Ha).
  destruct (@RecordingFacts.results_while_recording rnd (r :: rs) started
              eq_refl eq_refl) as (H1 & _ & _ & H4).
  set (final := DeafUserInterface.run rnd (map DeafUserInterface.Results (r :: rs))
                  started) in *.
  rewrite Hs1 in H1. rewrite Hs2 in H4.
  change (length (@nil frame)) with 0 in H1. rewrite app_nil_l in H1.
  assert (Hne : DeafUserInterface.framesRef final <> [])
    by (rewrite H1; cbn [DeafUserInterface.frames_of]; discriminate).
  destruct (LiveSubmissions.stopRecording_submits rnd final H4 Hne) as (He & _).
  rewrite He, H1. reflexivity.
Qed.

Lemma demo_override_is_used_once_witness :
  snd (fst (DeafUserInterface.stopRecording always_half
    (DeafUserInterface.run always_half
       (DeafUserInterface.Start :: map DeafUserInterface.Results [no_face])
       (fst (fst (DeafUserInterface.stopRecording_run always_half
                    [DeafUserInterface.TimerFired; DeafUserInterface.TranslateThrew]
                    (DeafUserInterface.handleKeyPress
                       (DeafUserInterface.mkKey "BODY" "1")
                       DeafUserInterface.initial))))))) =
    [DeafUserInterface.Recognize (DeafUserInterface.frames_of 0 [no_face])].
Proof.
  apply (@demo_override_is_used_once always_half
           (DeafUserInterface.handleKeyPress (DeafUserInterface.mkKey "BODY" "1")
              DeafUserInterface.initial)
           (DeafUserInterface.mkSign "hello" "Hello 👋" "hello") None no_face []).
  - intros n. split; vm_compute; congruence.
  - reflexivity.
Defined.

(** X6. Whatever its awaits resume with, a [stopRecording] call that has
    run to its end leaves the controller neither recording nor
    processing: every path clears [isProcessing] on its way out. *)
Theorem finished_stop_leaves_controller_idle rnd
  (resps : list DeafUserInterface.response) (s : DeafUserInterface.state) :
  snd (DeafUserInterface.stopRecording_run rnd resps s) = None ->
  let s' := fst (fst (DeafUserInterface.stopRecording_run rnd resps s)) in
  DeafUserInterface.isProcessing s' = false /\
  DeafUserInterface.isRecording s' = false /\
  DeafUserInterface.isRecordingRef s' = false.
Proof.
  unfold DeafUserInterface.stopRecording_run.
  pose proof (RecordingFacts.stopRecording_stops rnd s) as [Hr1 Hr2].
  assert (Hidle : snd (DeafUserInterface.stopRecording rnd s) = None ->
                  DeafUserInterface.isProcessing
                    (fst (fst (DeafUserInterface.stopRecording rnd s))) = false).
  { unfold DeafUserInterface.stopRecording, DeafUserInterface.processDemoSign. simpl.
    destruct (DeafUserInterface.demoOverrideRef s); simpl; [discriminate|].
    destruct (length (DeafUserInterface.framesRef s) =? 0); simpl;
      [reflexivity|discriminate]. }
  destruct (DeafUserInterface.stopRecording rnd s) as [[s1 e1] p1].
  simpl in Hr1, Hr2, Hidle.
  pose proof (@RecordingFacts.settle_ends_idle rnd p1 resps s1 Hidle) as H1.
  pose proof (RecordingFacts.settle_keeps_recording_flags rnd p1 resps s1) as [H2 H3].
  destruct (DeafUserInterface.settle rnd p1 resps s1) as [[s2 e2] p2].
  simpl in *. intros Hend. rewrite H2, H3. auto.
Qed.

Lemma finished_stop_leaves_controller_idle_witness :
  DeafUserInterface.isProcessing
    (fst (fst (DeafUserInterface.stopRecording_run no_random
                 [DeafUserInterface.RecognizeThrew "Network Error"]
                 recording_one_frame))) = false.
Proof.
  apply (@finished_stop_leaves_controller_idle no_random
           [DeafUserInterface.RecognizeThrew "Network Error"] recording_one_frame).
  reflexivity.
Defined.

(** X7. When the recognition service answers with a text, the interface
    shows that text both as the recognized sign and as its translation:
    no translation request is made, whatever the target language. *)
Theorem recognized_text_is_shown_untranslated rnd (d : APIService.recognize_data)
  (t : string) (s : DeafUserInterface.state) :
  APIService.data_text d = Some t -> t <> EmptyString ->
  exists s',
    DeafUserInterface.resume rnd DeafUserInterface.AwaitRecognize
      (DeafUserInterface.RecognizeReturned (APIService.processDeafUserMessage d)) s =
      (s', [], None) /\
    DeafUserInterface.recognizedText s' = t /\
    DeafUserInterface.translatedText s' = t /\
    DeafUserInterface.isProcessing s' = false /\
    DeafUserInterface.error s' = DeafUserInterface.error s.
Proof.
  intros Hd Ht. unfold APIService.processDeafUserMessage. rewrite Hd.
  destruct t as [|c t]; [contradiction|]. simpl.
  eexists. split; [reflexivity|]. repeat split.
Qed.

Lemma recognized_text_is_shown_untranslated_witness :
  exists s',
    DeafUserInterface.resume no_random DeafUserInterface.AwaitRecognize
      (DeafUserInterface.RecognizeReturned
         (APIService.processDeafUserMessage (APIService.mkData (Some "hello"%string) None)))
      recording_one_frame = (s', [], None) /\
    DeafUserInterface.translatedText s' = "hello"%string.
Proof.
  destruct (@recognized_text_is_shown_untranslated no_random
              (APIService.mkData (Some "hello"%string) None) "hello"%string recording_one_frame
              eq_refl) as (s' & H1 & _ & H3 & _); [discriminate|].
  exists s'. split; assumption.
Defined.



(** ** Live controller: consent and camera set-up *)

(** X9. Consent is sticky: after any series of requests it is given exactly
    if it was given before or some request was granted.  A later denial
    does not take consent back, and whether the consent log succeeded
    plays no part. *)
Theorem consent_once_given_is_kept (answers : list (bool * bool))
  (s : DeafUserInterface.state) (u : DeafUserInterface.setup) :
  DeafUserInterface.consentGiven (snd (request_consents answers s u)) =
    (DeafUserInterface.consentGiven u || existsb fst answers)%bool.
Proof.
  revert s u. induction answers as [|[granted logged] rest IH]; intros s u.
  - simpl. now rewrite orb_false_r.
  - cbn [request_consents]. unfold DeafUserInterface.requestCameraConsent.
    destruct granted; rewrite IH; cbn [existsb fst DeafUserInterface.consentGiven].
    + now rewrite orb_true_r.
    + reflexivity.
Qed.

(** X10. [initializeCamera] marks the camera started and MediaPipe ready,
    both together, exactly when both scripts are loaded and no step
    throws; in every other case it leaves both marks as they were and
    shows an error.  The refs it has set by then are the ones the
    unmount cleanup releases, so a camera whose start failed is still
    stopped and its engine closed. *)
Theorem camera_is_ready_only_if_every_step_succeeded (b : DeafUserInterface.browser)
  (s : DeafUserInterface.state) :
  let succeeded :=
    (DeafUserInterface.has_Holistic b && DeafUserInterface.has_Camera b &&
     match DeafUserInterface.holistic_throws b, DeafUserInterface.camera_throws b,
           DeafUserInterface.start_throws b with
     | None, None, None => true
     | _, _, _ => false
     end)%bool in
  let '(s', u', _) :=
    DeafUserInterface.initializeCamera b s DeafUserInterface.not_set_up in
  DeafUserInterface.cameraStarted u' = succeeded /\
  DeafUserInterface.mediaPipeReady u' = succeeded /\
  (DeafUserInterface.error s' = None <-> succeeded = true) /\
  (DeafUserInterface.has_Holistic b = true -> DeafUserInterface.has_Camera b = true ->
   DeafUserInterface.holistic_throws b = None ->
   DeafUserInterface.camera_throws b = None ->
   DeafUserInterface.unmount u' =
     [DeafUserInterface.StopCamera; DeafUserInterface.CloseHolistic]).
Proof.
  unfold DeafUserInterface.initializeCamera.
  destruct b as [hH hC ht ct st]. simpl.
  destruct hH, hC; simpl;
    try (repeat split; try discriminate; intros; discriminate).
  destruct ht as [m|]; simpl;
    [repeat split; try discriminate; intros; discriminate|].
  destruct ct as [m|]; simpl;
    [repeat split; try discriminate; intros; discriminate|].
  destruct st as [m|]; simpl; repeat split; try discriminate; auto.
Qed.

Lemma camera_is_ready_only_if_every_step_succeeded_witness :
  DeafUserInterface.unmount
    (snd (fst (DeafUserInterface.initializeCamera
                 (DeafUserInterface.mkBrowser true true None None
                    (Some "NotAllowedError"%string))
                 DeafUserInterface.initial DeafUserInterface.not_set_up))) =
    [DeafUserInterface.StopCamera; DeafUserInterface.CloseHolistic].
Proof.
  pose proof (camera_is_ready_only_if_every_step_succeeded
                (DeafUserInterface.mkBrowser true true None None
                   (Some "NotAllowedError"%string))
                DeafUserInterface.initial) as H.
  cbv zeta in H.
  destruct (DeafUserInterface.initializeCamera _ _ _) as [[s' u'] tr].
  destruct H as (_ & _ & _ & H). simpl. apply H; reflexivity.
Defined.

(** ** MediaPipe service object *)

Module ServiceFacts.
Import MediaPipeService.

Lemma not_in_existsb (h : handle) (closed : list handle) :
  ~ In h closed -> existsb (Nat.eqb h) closed = false.
Proof.
  intros H. destruct (existsb (Nat.eqb h) closed) eqn:E; [|reflexivity].
  apply existsb_exists in E. destruct E as (x & Hx & Heq).
  apply Nat.eqb_eq in Heq. subst. contradiction.
Qed.

Lemma perform_all_closed_is_final (cs : list call) (s : service) (closed : list handle) :
  sound closed s -> closed_is_final closed (snd (perform_all cs s)) = true.
Proof.
  revert s closed. induction cs as [|c cs IH]; intros s closed [Hc Hh]; [reflexivity|].
  cbn [perform_all].
  destruct c as [o|thrown| | |r|]; cbn [perform].
  - (* initialize *)
    destruct o as [|m|m]; cbn [initialize fst].
    + specialize (IH (mkService (Some (constructed s)) (Some (S (constructed s)))
                                true true (S (S (constructed s)))) closed).
      destruct (perform_all cs _) as [s2 e2]. simpl in *. apply IH. split; simpl.
      * intros h Hin. specialize (Hc h Hin). lia.
      * intros h Heq. inversion Heq; subst. split; [lia|].
        intros Hin. specialize (Hc _ Hin). lia.
    + specialize (IH (mkService (holistic s) (camera s) true (isInitialized s)
                                (constructed s)) closed).
      destruct (perform_all cs _) as [s2 e2]. simpl in *. apply IH. now split.
    + specialize (IH (mkService (Some (constructed s)) (camera s) true
                                (isInitialized s) (S (constructed s))) closed).
      destruct (perform_all cs _) as [s2 e2]. simpl in *. apply IH. split; simpl.
      * intros h Hin. specialize (Hc h Hin). lia.
      * intros h Heq. inversion Heq; subst. split; [lia|].
        intros Hin. specialize (Hc _ Hin). lia.
  - (* start *)
    specialize (IH s closed (conj Hc Hh)).
    destruct (perform_all cs s) as [s2 e2]. simpl in *.
    unfold start. destruct (camera s), (isInitialized s); simpl; exact IH.
  - specialize (IH s closed (conj Hc Hh)).
    destruct (perform_all cs s) as [s2 e2]. simpl in *.
    unfold stop. destruct (camera s); simpl; exact IH.
  - (* cleanup *)
    unfold cleanup.
    destruct (holistic s) as [h|] eqn:Eh.
    + destruct (Hh h eq_refl) as [Hlt Hnin].
      specialize (IH (mkService None None (onResults s) false (constructed s))
                     (h :: closed)).
      destruct (perform_all cs _) as [s2 e2]. simpl in *.
      assert (G : closed_is_final (h :: closed) e2 = true).
      { apply IH. split; simpl.
        - intros x [->|Hin]; auto.
        - intros x Hx. discriminate Hx. }
      unfold stop. destruct (camera s); simpl;
        rewrite (not_in_existsb _ _ Hnin); simpl; exact G.
    + specialize (IH (mkService None None (onResults s) false (constructed s)) closed).
      destruct (perform_all cs _) as [s2 e2]. simpl in *.
      assert (G : closed_is_final closed e2 = true).
      { apply IH. split; simpl; [exact Hc|]. intros x Hx. discriminate Hx. }
      unfold stop. destruct (camera s); simpl; rewrite ?app_nil_r; exact G.
  - specialize (IH s closed (conj Hc Hh)).
    destruct (perform_all cs s) as [s2 e2]. simpl in *.
    unfold handleResults. destruct (onResults s); simpl; exact IH.
  - (* onFrame *)
    specialize (IH s closed (conj Hc Hh)).
    destruct (perform_all cs s) as [s2 e2]. simpl in *.
    unfold onFrame. destruct (holistic s) as [h|] eqn:Eh; simpl; [|exact IH].
    destruct (Hh h eq_refl) as [_ Hnin].
    rewrite (not_in_existsb _ _ Hnin). simpl. exact IH.
Qed.

Lemma perform_all_app (a b : list call) (s : service) :
  fst (perform_all (a ++ b) s) = fst (perform_all b (fst (perform_all a s))).
Proof.
  revert s. induction a as [|c a IH]; intros s; [reflexivity|].
  simpl. destruct (perform c s) as [s1 e1]. specialize (IH s1).
  destruct (perform_all (a ++ b) s1) as [s2 e2].
  destruct (perform_all a s1) as [s3 e3]. simpl in *.
  destruct (perform_all b s3). simpl in *. exact IH.
Qed.

(** The flag follows the calls, and a set flag comes with a camera. *)
Lemma ready_tracks_calls (cs : list call) (s : service) :
  (isInitialized s = true -> camera s <> None) ->
  isInitialized (fst (perform_all cs s)) = service_ready (isInitialized s) cs /\
  (isInitialized (fst (perform_all cs s)) = true ->
   camera (fst (perform_all cs s)) <> None).
Proof.
  revert s. induction cs as [|c cs IH]; intros s Hs; [simpl; auto|].
  cbn [perform_all].
  assert (Hstep : (isInitialized (fst (perform c s)) = true ->
                   camera (fst (perform c s)) <> None) /\
                  service_ready (isInitialized s) (c :: cs) =
                  service_ready (isInitialized (fst (perform c s))) cs).
  { destruct c as [o|thrown| | |r|]; cbn [perform fst service_ready]; auto.
    - destruct o; cbn [initialize fst]; simpl; split; auto; discriminate.
    - simpl. split; [discriminate|reflexivity]. }
  destruct Hstep as [H1 H2].
  destruct (perform c s) as [s1 e1]. simpl in H1, H2.
  specialize (IH s1 H1). destruct (perform_all cs s1) as [s2 e2]. simpl in *.
  rewrite H2. exact IH.
Qed.

Lemma callback_tracks_calls (cs : list call) (s : service) :
  onResults (fst (perform_all cs s)) = (onResults s || existsb is_initialize cs)%bool.
Proof.
  revert s. induction cs as [|c cs IH]; intros s; [simpl; now rewrite orb_false_r|].
  cbn [perform_all].
  assert (Hstep : onResults (fst (perform c s)) = (onResults s || is_initialize c)%bool).
  { destruct c as [o|thrown| | |r|]; cbn [perform fst is_initialize];
      rewrite ?orb_false_r; auto.
    - destruct o; cbn [initialize fst]; simpl; now rewrite orb_true_r. }
  destruct (perform c s) as [s1 e1]. simpl in Hstep.
  specialize (IH s1). destruct (perform_all cs s1) as [s2 e2]. simpl in *.
  rewrite IH, Hstep, <- orb_assoc. reflexivity.
Qed.

End ServiceFacts.

(** X11. Whatever calls are made on the service and in whatever order, it
    never closes an engine instance twice and never sends a frame to an
    instance it has closed. *)
Theorem service_never_uses_a_closed_engine (cs : list MediaPipeService.call) :
  MediaPipeService.closed_is_final []
    (snd (MediaPipeService.perform_all cs MediaPipeService.created)) = true.
Proof.
  apply ServiceFacts.perform_all_closed_is_final. split.
  - intros h [].
  - intros h H. discriminate H.
Qed.

(** X12. [start()] starts the camera exactly when some [initialize()] has
    completed since the last [cleanup()]; otherwise, and in particular
    after an [initialize()] that threw, it starts nothing and fails with
    [MediaPipe not initialized]. *)
Theorem start_needs_a_completed_initialize (cs : list MediaPipeService.call)
  (thrown : option string) :
  let s := fst (MediaPipeService.perform_all cs MediaPipeService.created) in
  if service_ready false cs
  then exists c, MediaPipeService.start thrown s =
                   ([MediaPipeService.CameraStart c], thrown)
  else MediaPipeService.start thrown s =
         ([], Some MediaPipeService.NOT_INITIALIZED).
Proof.
  intros s.
  destruct (@ServiceFacts.ready_tracks_calls cs MediaPipeService.created)
    as [H1 H2]; [discriminate|].
  fold s in H1, H2. simpl in H1. rewrite <- H1.
  unfold MediaPipeService.start.
  destruct (MediaPipeService.isInitialized s) eqn:E.
  - destruct (MediaPipeService.camera s) as [c|]; [|exfalso; now apply H2].
    exists c. reflexivity.
  - destruct (MediaPipeService.camera s); reflexivity.
Qed.

(** X13. The callback given to [initialize()] is kept for good: from the
    first [initialize()] on, even one that threw and even after
    [cleanup()], every result handed to [handleResults] is forwarded
    once with the keypoints extracted from it; before it, nothing is. *)
Theorem callback_outlives_cleanup (cs : list MediaPipeService.call) (r : results) :
  MediaPipeService.handleResults r
    (fst (MediaPipeService.perform_all cs MediaPipeService.created)) =
  if existsb is_initialize cs
  then [MediaPipeService.Callback (MediaPipeService.extractKeypoints r) r]
  else [].
Proof.
  unfold MediaPipeService.handleResults.
  rewrite ServiceFacts.callback_tracks_calls. reflexivity.
Qed.

(** ** Dataset processor: log, engine use and queue bookkeeping *)

Module QueueFacts.
Import DatasetProcessor.

Lemma slice_last_short (n : nat) (l : list logmsg) :
  length l <= n -> slice_last n l = l.
Proof.
  intros H. unfold slice_last.
  replace (length l - n) with 0 by lia. reflexivity.
Qed.

Lemma addLog_is_last_five (m : logmsg) (l : list logmsg) :
  addLog m (slice_last 5 l) = slice_last 5 (l ++ [m]).
Proof.
  unfold addLog, slice_last.
  rewrite length_app, length_skipn, skipn_skipn. simpl length.
  destruct (Nat.le_gt_cases (length l) 5) as [H|H].
  - replace (length l - 5) with 0 by lia.
    rewrite skipn_app. simpl skipn at 1.
    replace (length l - 0 - 4 + 0) with (length l + 1 - 5) by lia.
    replace (length l + 1 - 5 - length l) with 0 by lia. reflexivity.
  - rewrite skipn_app.
    replace (length l - (length l - 5) - 4 + (length l - 5)) with (length l + 1 - 5)
      by lia.
    replace (length l + 1 - 5 - length l) with 0 by lia. reflexivity.
Qed.

Lemma addLog_all (ms : list logmsg) (l : list logmsg) :
  fold_left (fun logs m => addLog m logs) ms (slice_last 5 l) = slice_last 5 (l ++ ms).
Proof.
  revert l. induction ms as [|m ms IH]; intros l; simpl.
  - now rewrite app_nil_r.
  - rewrite addLog_is_last_five, IH, <- app_assoc. reflexivity.
Qed.

Lemma engine_use_ok_app (a b : list effect) (live : option handle) :
  engine_use_ok live (a ++ b) =
    (engine_use_ok live a && engine_use_ok (live_after live a) b)%bool.
Proof.
  revert live. induction a as [|e a IH]; intros live; simpl; [reflexivity|].
  destruct e; simpl; try apply IH.
  - destruct live as [l|]; [|reflexivity]. now rewrite IH, andb_assoc.
  - destruct live as [l|]; [reflexivity|]. apply IH.
  - destruct live as [l|]; [|reflexivity]. now rewrite IH, andb_assoc.
Qed.

Lemma live_after_app (a b : list effect) (live : option handle) :
  live_after live (a ++ b) = live_after (live_after live a) b.
Proof.
  revert live. induction a as [|e a IH]; intros live; simpl; [reflexivity|].
  destruct e; simpl; apply IH.
Qed.

(** A job sends only to the instance it was given and leaves it in use. *)
Lemma drive_uses_its_engine h v evs (s : session) :
  engine_use_ok h (snd (drive h v evs s)) = true /\
  live_after h (snd (drive h v evs s)) = h.
Proof.
  revert s. induction evs as [|ev evs IH]; intros s; simpl; [auto|].
  assert (H1 : engine_use_ok h (snd (step h v ev s)) = true /\
               live_after h (snd (step h v ev s)) = h).
  { destruct ev; cbn [step].
    - unfold processNextFrame.
      destruct (paused s || ended s)%bool; [auto|].
      destruct (isProcessingFrame s), h as [h0|]; simpl; auto.
      destruct send; simpl; rewrite Nat.eqb_refl; auto.
    - destruct h; simpl; auto.
    - unfold onended. simpl. destruct (0 <? length (frames s)); simpl; auto.
    - simpl. auto.
    - simpl. auto. }
  destruct (step h v ev s) as [s1 e1]. simpl in H1. destruct H1 as [H1 H2].
  specialize (IH s1). destruct (drive h v evs s1) as [s2 e2]. simpl in *.
  destruct IH as [I1 I2].
  rewrite engine_use_ok_app, live_after_app, H1, H2, I1, I2. auto.
Qed.

Lemma create_uses_engine_well (c : component) :
  engine_use_ok (holisticRef c) (snd (createHolisticInstance c)) = true /\
  live_after (holisticRef c) (snd (createHolisticInstance c)) =
    holisticRef (fst (createHolisticInstance c)).
Proof.
  unfold createHolisticInstance. simpl.
  destruct (holisticRef c) as [h|]; simpl; rewrite ?Nat.eqb_refl; auto.
Qed.

Lemma loop_uses_engine_well captured jobs (c : component) :
  engine_use_ok (holisticRef c) (snd (loop captured jobs c)) = true.
Proof.
  revert c. induction jobs as [|j jobs IH]; intros c; [reflexivity|].
  cbn [loop].
  set (pre := if ((0 <? captured) && (captured mod RECYCLE_PERIOD =? 0))%bool
              then createHolisticInstance c else (c, [])).
  assert (Hpre : engine_use_ok (holisticRef c) (snd pre) = true /\
                 live_after (holisticRef c) (snd pre) = holisticRef (fst pre)).
  { unfold pre. destruct ((0 <? captured) && (captured mod RECYCLE_PERIOD =? 0))%bool;
      [apply create_uses_engine_well|simpl; auto]. }
  destruct pre as [c1 e1]. simpl in Hpre. destruct Hpre as [P1 P2].
  unfold processVideoSimple.
  destruct (setup_throws j).
  - pose proof (create_uses_engine_well c1) as [C1 C2].
    destruct (createHolisticInstance c1) as [c2 e3]. simpl in C1, C2.
    specialize (IH c2). destruct (loop captured jobs c2) as [c3 e4]. simpl in *.
    rewrite engine_use_ok_app, P1, P2. cbn [engine_use_ok andb].
    rewrite engine_use_ok_app, C1, C2, IH. reflexivity.
  - pose proof (drive_uses_its_engine (holisticRef c1) (source j) (script j) fresh)
      as [D1 D2].
    destruct (drive (holisticRef c1) (source j) (script j) fresh) as [s tr].
    simpl in D1, D2. destruct (settled s).
    + specialize (IH (mkComponent (holisticRef c1) (constructed c1)
                                  (S (processedCount c1)))).
      destruct (loop captured jobs _) as [c3 e3]. simpl in *.
      rewrite engine_use_ok_app, P1, P2. cbn [andb].
      rewrite engine_use_ok_app, D1, D2. cbn [engine_use_ok andb]. exact IH.
    + simpl. rewrite engine_use_ok_app, P1, P2, D1. reflexivity.
Qed.

(** What a run that reaches its end has counted and recycled. *)
Lemma loop_bookkeeping captured jobs (c c' : component) :
  fst (loop captured jobs c) = Some c' ->
  processedCount c' =
    processedCount c + length (filter (fun j => negb (setup_throws j)) jobs) /\
  recycles (snd (loop captured jobs c)) =
    (if periodic captured then length jobs else 0) +
    length (filter setup_throws jobs) /\
  length (filter is_failed_log (snd (loop captured jobs c))) =
    length (filter setup_throws jobs).
Proof.
  revert c. induction jobs as [|j jobs IH]; intros c Hend.
  - simpl in *. inversion Hend; subst. unfold recycles.
    destruct (periodic captured); simpl; lia.
  - cbn [loop] in *. fold (periodic captured) in *.
    assert (Hpre : exists c1 e1,
              (if periodic captured then createHolisticInstance c else (c, [])) = (c1, e1) /\
              processedCount c1 = processedCount c /\
              recycles e1 = (if periodic captured then 1 else 0) /\
              filter is_failed_log e1 = []).
    { destruct (periodic captured).
      - eexists. eexists. split; [reflexivity|].
        unfold createHolisticInstance, recycles. simpl.
        destruct (holisticRef c); simpl; auto.
      - eexists. eexists. split; [reflexivity|]. auto. }
    destruct Hpre as (c1 & e1 & Hpre & Hpc & Hrc & Hfl). rewrite Hpre in *.
    unfold processVideoSimple in *. cbn [filter].
    destruct (setup_throws j) eqn:Hj; cbn [negb].
    + assert (Hcr : processedCount (fst (createHolisticInstance c1)) = processedCount c1 /\
                    recycles (snd (createHolisticInstance c1)) = 1 /\
                    filter is_failed_log (snd (createHolisticInstance c1)) = []).
      { unfold createHolisticInstance, recycles. simpl.
        destruct (holisticRef c1); simpl; auto. }
      destruct (createHolisticInstance c1) as [c2 e3]. simpl in Hcr.
      destruct Hcr as (Hc2 & Hr2 & Hf2).
      specialize (IH c2). destruct (loop captured jobs c2) as [c3 e4]. simpl in *.
      destruct (IH Hend) as (I1 & I2 & I3).
      apply (f_equal (@length effect)) in Hfl, Hf2.
      unfold recycles in *.
      rewrite ?filter_app, ?length_app. cbn [filter is_new is_failed_log].
      rewrite ?filter_app, ?length_app. cbn [length].
      rewrite ?filter_app, ?length_app. simpl in Hfl, Hf2.
      destruct (periodic captured); repeat split; lia.
    + pose proof (BatchFacts.drive_constructs_nothing (holisticRef c1) (source j)
                    (script j) fresh) as Hnew.
      assert (Hlog : filter is_failed_log
                       (snd (drive (holisticRef c1) (source j) (script j) fresh)) = []).
      { generalize fresh. generalize (script j). clear.
        induction l as [|ev evs IHe]; intros s0; simpl; [reflexivity|].
        assert (H1 : filter is_failed_log
                       (snd (step (holisticRef c1) (source j) ev s0)) = []).
        { destruct ev; cbn [step].
          - unfold processNextFrame.
            destruct (paused s0 || ended s0)%bool; [reflexivity|].
            destruct (isProcessingFrame s0), (holisticRef c1); try reflexivity.
            destruct send; reflexivity.
          - destruct (holisticRef c1); reflexivity.
          - unfold onended. simpl. destruct (0 <? length (frames s0)); reflexivity.
          - reflexivity.
          - reflexivity. }
        destruct (step (holisticRef c1) (source j) ev s0) as [s1 e1]. simpl in H1.
        specialize (IHe s1).
        destruct (drive (holisticRef c1) (source j) evs s1) as [s2 e2]. simpl in *.
        now rewrite filter_app, H1, IHe. }
      destruct (drive (holisticRef c1) (source j) (script j) fresh) as [s tr].
      simpl in Hnew, Hlog. destruct (settled s); [|simpl in Hend; discriminate].
      specialize (IH (mkComponent (holisticRef c1) (constructed c1)
                                  (S (processedCount c1)))).
      destruct (loop captured jobs _) as [c3 e3]. simpl in *.
      destruct (IH Hend) as (I1 & I2 & I3).
      apply (f_equal (@length effect)) in Hfl, Hnew, Hlog.
      unfold recycles in *.
      rewrite ?filter_app, ?length_app. cbn [filter is_new is_failed_log].
      rewrite ?filter_app, ?length_app. simpl in Hfl, Hnew, Hlog, I1.
      destruct (periodic captured); repeat split; lia.
Qed.

Lemma startProcessing_loop captured jobs (c : component) :
  fst (startProcessing captured jobs c) =
    fst (loop captured jobs (mkComponent (holisticRef c) (constructed c) 0)) /\
  filter is_new (snd (startProcessing captured jobs c)) =
    filter is_new (snd (loop captured jobs (mkComponent (holisticRef c) (constructed c) 0))) /\
  filter is_failed_log (snd (startProcessing captured jobs c)) =
    filter is_failed_log
      (snd (loop captured jobs (mkComponent (holisticRef c) (constructed c) 0))).
Proof.
  unfold startProcessing.
  destruct (loop captured jobs _) as [[c1|] tr]; simpl; auto.
  rewrite !filter_app. simpl. rewrite !app_nil_r. auto.
Qed.

(** A saved buffer is the whole buffer, numbered in order. *)
Lemma drive_saves_are_sound h v evs (s : session) :
  buffer_ok s -> Forall save_is_sound (snd (drive h v evs s)).
Proof.
  revert s. induction evs as [|ev evs IH]; intros s Hok; simpl; [constructor|].
  pose proof (BatchFacts.step_buffer_ok h v ev Hok) as Hok1.
  assert (H1 : Forall save_is_sound (snd (step h v ev s))).
  { destruct ev; cbn [step].
    - unfold processNextFrame.
      destruct (paused s || ended s)%bool; [constructor|].
      destruct (isProcessingFrame s), h; simpl; repeat constructor.
      destruct send; repeat constructor.
    - destruct h; constructor.
    - unfold onended. simpl.
      destruct (frames s) as [|f fs] eqn:E; simpl; repeat constructor.
      + discriminate.
      + rewrite <- E. apply Hok.
    - repeat constructor.
    - repeat constructor. }
  destruct (step h v ev s) as [s1 e1]. simpl in *.
  specialize (IH s1 Hok1). destruct (drive h v evs s1) as [s2 e2]. simpl in *.
  apply Forall_app. now split.
Qed.

(** Nothing is sent once the video is paused or has ended. *)
Lemma stopped_video_sends_nothing h v evs (s : session) :
  paused s = true \/ ended s = true -> filter is_send (snd (drive h v evs s)) = [].
Proof.
  revert s. induction evs as [|ev evs IH]; intros s Hp; simpl; [reflexivity|].
  assert (H1 : (paused (fst (step h v ev s)) = true \/
                ended (fst (step h v ev s)) = true) /\
               filter is_send (snd (step h v ev s)) = []).
  { destruct ev; cbn [step].
    - unfold processNextFrame.
      assert (Hb : (paused s || ended s)%bool = true)
        by (destruct Hp as [-> | ->]; [reflexivity|apply orb_true_r]).
      rewrite Hb. simpl. now split.
    - destruct h; simpl; now split.
    - unfold onended. simpl. split; [now right|].
      destruct (0 <? length (frames s)); reflexivity.
    - now split.
    - now split. }
  destruct (step h v ev s) as [s1 e1]. simpl in H1. destruct H1 as [Hp1 He1].
  specialize (IH s1 Hp1). destruct (drive h v evs s1) as [s2 e2]. simpl in *.
  now rewrite filter_app, He1, IH.
Qed.

(** The sends a job may still issue, given what it will be delivered. *)
Lemma sends_bounded_by_results h v evs (s : session) :
  length (filter is_send (snd (drive h v evs s))) <=
    length (filter is_results evs) +
    (if (paused s || ended s || isProcessingFrame s)%bool then 0 else 1).
Proof.
  revert s. induction evs as [|ev evs IH]; intros s; simpl; [lia|].
  destruct ev; cbn [step is_results].
  - unfold processNextFrame.
    destruct (paused s || ended s)%bool eqn:Hpe; simpl.
    + specialize (IH s). destruct (drive h v evs s) as [s2 e2]. simpl in *.
      rewrite Hpe in IH. simpl in IH. exact IH.
    + destruct (isProcessingFrame s) eqn:Hf.
      * destruct h as [h0|]; simpl;
          specialize (IH s); destruct (drive _ v evs s) as [s2 e2]; simpl in *;
          rewrite Hpe, Hf in IH; simpl in IH; exact IH.
      * destruct h as [h0|].
        -- destruct send.
           ++ specialize (IH (mkSession (frames s) (frameId s) true (paused s)
                                        (ended s) (settled s))).
              destruct (drive _ v evs _) as [s2 e2]. simpl in *.
              rewrite orb_true_r in IH. simpl in IH. lia.
           ++ specialize (IH (mkSession (frames s) (frameId s) false true
                                        (ended s) true)).
              destruct (drive _ v evs _) as [s2 e2]. simpl in *. lia.
        -- specialize (IH s). destruct (drive _ v evs s) as [s2 e2]. simpl in *.
           rewrite Hpe, Hf in IH. simpl in IH. exact IH.
  - destruct h as [h0|]; simpl.
    + specialize (IH (onResults r s)). destruct (drive _ v evs _) as [s2 e2].
      simpl in *. destruct (paused s || ended s)%bool; simpl in *; lia.
    + specialize (IH s). destruct (drive _ v evs s) as [s2 e2]. simpl in *.
      destruct (paused s || ended s || isProcessingFrame s)%bool; lia.
  - unfold onended. simpl.
    specialize (IH (mkSession (frames s) (frameId s) (isProcessingFrame s)
                              (paused s) true true)).
    destruct (drive _ v evs _) as [s2 e2]. simpl in *.
    rewrite orb_true_r in IH. simpl in IH.
    destruct (0 <? length (frames s)); simpl; lia.
  - simpl. specialize (IH (resolve s)). destruct (drive _ v evs _) as [s2 e2].
    simpl in *. exact IH.
  - simpl. specialize (IH (resolve s)). destruct (drive _ v evs _) as [s2 e2].
    simpl in *. exact IH.
Qed.

(** The buffer grows by exactly the results delivered. *)
Lemma drive_collects_results h0 v evs (s : session) :
  frames (fst (drive (Some h0) v evs s)) =
    frames s ++ frames_of (frameId s) (results_of evs).
Proof.
  revert s. induction evs as [|ev evs IH]; intros s; simpl.
  - now rewrite app_nil_r.
  - assert (H1 : frames (fst (step (Some h0) v ev s)) =
                 frames s ++ frames_of (frameId s) (results_of [ev]) /\
                 frameId (fst (step (Some h0) v ev s)) =
                 frameId s + length (results_of [ev])).
    { destruct ev; cbn [step]; simpl; rewrite ?app_nil_r, ?Nat.add_0_r; auto.
      - unfold processNextFrame.
        destruct (paused s || ended s)%bool; [auto|].
        destruct (isProcessingFrame s); [auto|]. destruct send; auto. }
    destruct (step (Some h0) v ev s) as [s1 e1]. simpl in H1. destruct H1 as [H1 H2].
    specialize (IH s1). destruct (drive (Some h0) v evs s1) as [s2 e2]. simpl in *.
    rewrite IH, H1, H2, <- app_assoc. f_equal.
    unfold results_of. simpl. rewrite app_nil_r.
    destruct ev; simpl; rewrite ?Nat.add_0_r; try reflexivity.
    now rewrite Nat.add_1_r.
Qed.

End QueueFacts.

(** X14. The on-screen log of the dataset processor shows the last five
    messages added, oldest first, and never more. *)
Theorem dataset_log_keeps_last_five (ms : list DatasetProcessor.logmsg) :
  fold_left (fun logs m => DatasetProcessor.addLog m logs) ms [] =
    skipn (length ms - 5) ms /\
  length (fold_left (fun logs m => DatasetProcessor.addLog m logs) ms []) <= 5.
Proof.
  pose proof (QueueFacts.addLog_all ms []) as H.
  change (DatasetProcessor.slice_last 5 []) with (@nil DatasetProcessor.logmsg) in H.
  simpl app in H. unfold DatasetProcessor.slice_last in H. rewrite H.
  split; [reflexivity|]. rewrite length_skipn. lia.
Qed.

(** X15. Over a whole run of the queue, for any captured count and any
    jobs, an engine instance is constructed only after the one in use
    was closed, and every close and every send addresses the instance
    in use: there is never more than one, and nothing is sent to a
    closed one. *)
Theorem queue_keeps_a_single_engine_in_use (captured : nat)
  (jobs : list DatasetProcessor.job) (c : DatasetProcessor.component) :
  DatasetProcessor.engine_use_ok (DatasetProcessor.holisticRef c)
    (snd (DatasetProcessor.startProcessing captured jobs c)) = true.
Proof.
  unfold DatasetProcessor.startProcessing.
  pose proof (QueueFacts.loop_uses_engine_well captured jobs
                (DatasetProcessor.mkComponent (DatasetProcessor.holisticRef c)
                   (DatasetProcessor.constructed c) 0)) as H.
  destruct (DatasetProcessor.loop captured jobs _) as [[c1|] tr]; simpl in *.
  - rewrite QueueFacts.engine_use_ok_app, H. reflexivity.
  - exact H.
Qed.

(** X16. When a run of the queue reaches its end, the progress counter
    stands at the number of jobs whose promise was resolved (a job that
    crashed or failed to load counts as processed), and one failure is
    logged per job whose promise was rejected. *)
Theorem progress_counts_resolved_jobs (captured : nat)
  (jobs : list DatasetProcessor.job) (c c' : DatasetProcessor.component) :
  fst (DatasetProcessor.startProcessing captured jobs c) = Some c' ->
  DatasetProcessor.processedCount c' =
    length (filter (fun j => negb (DatasetProcessor.setup_throws j)) jobs) /\
  length (filter DatasetProcessor.is_failed_log
            (snd (DatasetProcessor.startProcessing captured jobs c))) =
    length (filter DatasetProcessor.setup_throws jobs).
Proof.
  intros Hend.
  destruct (QueueFacts.startProcessing_loop captured jobs c) as (H1 & _ & H3).
  rewrite H1 in Hend. rewrite H3.
  destruct (QueueFacts.loop_bookkeeping captured jobs _ Hend) as (I1 & _ & I3).
  rewrite I1, I3. simpl. auto.
Qed.

Lemma progress_counts_resolved_jobs_witness :
  exists c',
    fst (DatasetProcessor.startProcessing 0 [ok_job; crash_job; failing_setup_job]
           DatasetProcessor.mounted) = Some c' /\
    DatasetProcessor.processedCount c' = 2.
Proof.
  eexists. split; [vm_compute; reflexivity|].
  apply (@progress_counts_resolved_jobs 0 [ok_job; crash_job; failing_setup_job]
           DatasetProcessor.mounted).
  vm_compute. reflexivity.
Defined.

(** X17. When a run of the queue reaches its end, the number of engine
    recycles is one per job whose promise was rejected, plus one per
    job if the count captured when the run was started is a positive
    multiple of 20, and none otherwise. *)
Theorem recycles_of_a_finished_run (captured : nat)
  (jobs : list DatasetProcessor.job) (c c' : DatasetProcessor.component) :
  fst (DatasetProcessor.startProcessing captured jobs c) = Some c' ->
  DatasetProcessor.recycles (snd (DatasetProcessor.startProcessing captured jobs c)) =
    (if DatasetProcessor.periodic captured then length jobs else 0) +
    length (filter DatasetProcessor.setup_throws jobs).
Proof.
  intros Hend.
  destruct (QueueFacts.startProcessing_loop captured jobs c) as (H1 & H2 & _).
  rewrite H1 in Hend. unfold DatasetProcessor.recycles. rewrite H2.
  destruct (QueueFacts.loop_bookkeeping captured jobs _ Hend) as (_ & I2 & _).
  exact I2.
Qed.

Lemma recycles_of_a_finished_run_witness :
  DatasetProcessor.recycles
    (snd (DatasetProcessor.startProcessing 40 [ok_job; failing_setup_job; ok_job]
            after_first_run)) = 4.
Proof.
  rewrite (@recycles_of_a_finished_run 40 [ok_job; failing_setup_job; ok_job]
             after_first_run
             (DatasetProcessor.mkComponent (Some 4) 5 2)).
  - reflexivity.
  - vm_compute. reflexivity.
Defined.

(** X18. Whatever a job's callbacks receive, every buffer it hands to the
    persistence endpoint is non-empty and numbered 0, 1, 2, ... in
    order. *)
Theorem saved_buffers_are_whole_and_numbered (h : option DatasetProcessor.handle)
  (v : DatasetProcessor.video) (evs : list DatasetProcessor.event) :
  Forall DatasetProcessor.save_is_sound
    (snd (DatasetProcessor.drive h v evs DatasetProcessor.fresh)).
Proof.
  apply QueueFacts.drive_saves_are_sound. split; reflexivity.
Qed.

(** X19. Once the video of a job is paused (a send has thrown) or has ended,
    the job sends no further frame to the engine, whatever callbacks
    still arrive. *)
Theorem stopped_video_is_never_sent (h : option DatasetProcessor.handle)
  (v : DatasetProcessor.video) (evs : list DatasetProcessor.event)
  (s : DatasetProcessor.session) :
  DatasetProcessor.paused s = true \/ DatasetProcessor.ended s = true ->
  filter DatasetProcessor.is_send (snd (DatasetProcessor.drive h v evs s)) = [].
Proof. apply QueueFacts.stopped_video_sends_nothing. Qed.

Lemma stopped_video_is_never_sent_witness :
  filter DatasetProcessor.is_send
    (snd (DatasetProcessor.drive (Some 0) sample_video
            [DatasetProcessor.Offer DatasetProcessor.SendResolves;
             DatasetProcessor.OnResults no_face;
             DatasetProcessor.Offer DatasetProcessor.SendResolves]
            (fst (DatasetProcessor.drive (Some 0) sample_video
                    [DatasetProcessor.Offer DatasetProcessor.SendThrows]
                    DatasetProcessor.fresh)))) = [].
Proof.
  apply (@stopped_video_is_never_sent (Some 0) sample_video).
  left. reflexivity.
Defined.

(** X20. A job never runs ahead of the engine by more than one frame: the
    number of sends it issues is at most the number of results it is
    delivered plus one. *)
Theorem sends_exceed_results_by_at_most_one (h : option DatasetProcessor.handle)
  (v : DatasetProcessor.video) (evs : list DatasetProcessor.event) :
  length (filter DatasetProcessor.is_send
            (snd (DatasetProcessor.drive h v evs DatasetProcessor.fresh))) <=
  length (filter DatasetProcessor.is_results evs) + 1.
Proof.
  pose proof (QueueFacts.sends_bounded_by_results h v evs DatasetProcessor.fresh) as H.
  simpl in H. exact H.
Qed.

(** X21. With an engine in place, the buffer of a job holds exactly the
    results delivered to it, in delivery order and numbered from 0,
    including results that arrive after the video has ended or the job
    has been given up; without an engine it stays empty. *)
Theorem job_buffer_holds_delivered_results (h : option DatasetProcessor.handle)
  (v : DatasetProcessor.video) (evs : list DatasetProcessor.event) :
  DatasetProcessor.frames (fst (DatasetProcessor.drive h v evs DatasetProcessor.fresh)) =
    match h with
    | Some _ => DatasetProcessor.frames_of 0 (results_of evs)
    | None => []
    end.
Proof.
  destruct h as [h0|].
  - apply (QueueFacts.drive_collects_results h0 v evs DatasetProcessor.fresh).
  - assert (G : forall s, DatasetProcessor.frames
                            (fst (DatasetProcessor.drive None v evs s)) =
                          DatasetProcessor.frames s).
    { induction evs as [|ev evs IH]; intros s; simpl; [reflexivity|].
      assert (H1 : DatasetProcessor.frames (fst (DatasetProcessor.step None v ev s)) =
                   DatasetProcessor.frames s).
      { destruct ev; cbn [DatasetProcessor.step]; simpl; auto.
        unfold DatasetProcessor.processNextFrame.
        destruct (DatasetProcessor.paused s || DatasetProcessor.ended s)%bool; auto.
        destruct (DatasetProcessor.isProcessingFrame s); auto. }
      destruct (DatasetProcessor.step None v ev s) as [s1 e1]. simpl in H1.
      specialize (IH s1). destruct (DatasetProcessor.drive None v evs s1). simpl in *.
      now rewrite IH. }
    apply G.
Qed.

(** ** Video processor: retries, saves, log and manual controls *)

Module ProcessorFacts.
Import VideoProcessor.

Lemma saveResults_sound fetch_ok it (st : state) :
  buffer_ok st ->
  Forall save_is_sound (saveResults fetch_ok it st) /\
  attempts (saveResults fetch_ok it st) = [].
Proof.
  intros [Hc Hn]. unfold saveResults.
  destruct (currentFramesRef st) as [|f fs] eqn:E; simpl.
  - split; [repeat constructor|reflexivity].
  - split; [|destruct fetch_ok; reflexivity].
    constructor; [split; [discriminate|exact Hc]|].
    destruct fetch_ok; repeat constructor.
Qed.

Lemma processFrame_sound captured manifest it o (st : state) :
  buffer_ok st ->
  buffer_ok (fst (fst (processFrame captured manifest it o st))) /\
  Forall save_is_sound (snd (fst (processFrame captured manifest it o st))) /\
  attempts (snd (fst (processFrame captured manifest it o st))) = [].
Proof.
  intros Hok. pose proof Hok as [Hc Hn]. destruct o as [[r| |]|replay_ok fetch_ok].
  - simpl. split; [|split; [repeat constructor|reflexivity]].
    split; simpl.
    + rewrite Hn. now apply LiveFacts.contiguous_snoc.
    + rewrite length_app, Hn. reflexivity.
  - simpl. split; [exact Hok|split; [repeat constructor|reflexivity]].
  - simpl. split; [exact Hok|split; [repeat constructor|reflexivity]].
  - unfold processFrame.
    destruct (saveResults_sound fetch_ok it Hok) as [Hs Ha].
    destruct (0 <? length (currentFramesRef st)) eqn:Hlen.
    + destruct (indexOf it manifest) as [i|]; [|simpl; auto].
      destruct (captured =? i); simpl; [|auto].
      split; [exact Hok|]. split.
      * apply Forall_app. split; [exact Hs|repeat constructor].
      * unfold attempts in *. rewrite flat_map_app, Ha. reflexivity.
    + simpl. split; [split; [reflexivity|]|].
      * simpl. apply Nat.ltb_ge in Hlen. lia.
      * split; [destruct replay_ok; repeat constructor|].
        destruct replay_ok; reflexivity.
Qed.

Lemma processVideoFrames_sound captured manifest it obs (st : state) :
  buffer_ok st ->
  buffer_ok (fst (processVideoFrames captured manifest it obs st)) /\
  Forall save_is_sound (snd (processVideoFrames captured manifest it obs st)) /\
  attempts (snd (processVideoFrames captured manifest it obs st)) = [].
Proof.
  revert st. induction obs as [|o obs IH]; intros st Hok; simpl.
  - split; [exact Hok|split; [constructor|reflexivity]].
  - destruct (processFrame_sound captured manifest it o Hok) as (H1 & H2 & H3).
    destruct (processFrame captured manifest it o st) as [[st1 e1] go_on].
    simpl in H1, H2, H3. destruct go_on; [|simpl; auto].
    destruct (IH st1 H1) as (I1 & I2 & I3).
    destruct (processVideoFrames captured manifest it obs st1) as [st2 e2].
    simpl in *. split; [exact I1|]. split.
    + apply Forall_app. now split.
    + unfold attempts in *. now rewrite flat_map_app, H3, I3.
Qed.

Lemma playVideo_sound fuel env captured manifest it retryCount (st st' : state) tr :
  buffer_ok st ->
  playVideo fuel env captured manifest it retryCount st = Some (st', tr) ->
  buffer_ok st' /\ Forall save_is_sound tr /\
  exists n, attempts tr = seq retryCount n /\ n <= 4 - retryCount.
Proof.
  revert retryCount st st' tr.
  induction fuel as [|fuel IH]; intros rc st st' tr Hok Hrun; [discriminate|].
  cbn [playVideo] in Hrun. unfold MAX_RETRIES in Hrun.
  destruct (3 <? rc) eqn:Hrc.
  - simpl in Hrun. inversion Hrun; subst. split; [exact Hok|].
    split; [repeat constructor|]. exists 0. split; [reflexivity|lia].
  - apply Nat.ltb_ge in Hrc.
    destruct (env rc) as [message|obs fetch_ok].
    + destruct (includes "interrupted" message).
      * destruct (playVideo fuel env captured manifest it (rc + 1) st)
          as [[st1 e]|] eqn:Hnext; [|discriminate].
        inversion Hrun; subst.
        destruct (IH _ _ _ _ Hok Hnext) as (I1 & I2 & n & I3 & I4).
        split; [exact I1|]. split; [repeat constructor; exact I2|].
        exists (S n). split; [|lia]. unfold attempts in *.
        cbn [flat_map app]. rewrite I3, Nat.add_1_r. reflexivity.
      * simpl in Hrun. inversion Hrun; subst. split; [exact Hok|].
        split; [repeat constructor|]. exists 1. split; [reflexivity|lia].
    + destruct (processVideoFrames_sound captured manifest it obs Hok)
        as (H1 & H2 & H3).
      destruct (processVideoFrames captured manifest it obs st) as [st1 e1].
      simpl in H1, H2, H3.
      assert (Hpre : Forall save_is_sound
                       ([Sleep 500; PlayAttempt rc] ++ e1 ++ [Sleep WATCHDOG_MS]) /\
                     attempts ([Sleep 500; PlayAttempt rc] ++ e1 ++ [Sleep WATCHDOG_MS])
                     = [rc]).
      { split.
        - repeat constructor. apply Forall_app. split; [exact H2|repeat constructor].
        - unfold attempts in *. simpl. rewrite flat_map_app, H3. reflexivity. }
      destruct Hpre as [P1 P2].
      remember ([Sleep 500; PlayAttempt rc] ++ e1 ++ [Sleep WATCHDOG_MS]) as pre eqn:Epre.
      clear Epre.
      assert (Hstop : Some (st1, pre) = Some (st', tr) ->
                      buffer_ok st' /\ Forall save_is_sound tr /\
                      exists n, attempts tr = seq rc n /\ n <= 4 - rc).
      { intros E. inversion E; subst. split; [exact H1|]. split; [exact P1|].
        exists 1. split; [exact P2|lia]. }
      destruct (indexOf it manifest) as [i|]; [|now apply Hstop].
      destruct (captured =? i); [|now apply Hstop].
      destruct (length (currentFramesRef st1) =? 0).
      * destruct (playVideo fuel env captured manifest it (rc + 1) st1)
          as [[st2 e]|] eqn:Hnext; [|discriminate].
        injection Hrun as E1 E2; subst st' tr.
        destruct (IH _ _ _ _ H1 Hnext) as (I1 & I2 & n & I3 & I4).
        split; [exact I1|]. split.
        -- apply Forall_app. split; [exact P1|repeat constructor; exact I2].
        -- exists (S n). split; [|lia]. unfold attempts in *.
           rewrite flat_map_app, P2. cbn [flat_map app].
           rewrite I3, Nat.add_1_r. reflexivity.
      * destruct (saveResults_sound fetch_ok it H1) as [S1 S2].
        destruct (advance st1) as [st2 e] eqn:Hadv. unfold advance in Hadv.
        injection Hadv as A1 A2. injection Hrun as E1 E2; subst st' tr st2 e.
        split; [exact H1|]. split.
        -- apply Forall_app. split; [exact P1|]. constructor; [exact I|].
           apply Forall_app. split; [exact S1|repeat constructor].
        -- exists 1. split; [|lia]. unfold attempts in *.
           rewrite flat_map_app, P2. cbn [flat_map app].
           rewrite flat_map_app, S2. reflexivity.
Qed.




Lemma addLog_is_first_fifty time msg (l : list string) :
  addLog time msg (firstn 50 l) = firstn 50 (log_entry time msg :: l).
Proof.
  unfold addLog. change 50 with (S 49).
  rewrite !firstn_cons. f_equal. rewrite firstn_firstn.
  replace (Nat.min 49 (S 49)) with 49 by reflexivity. reflexivity.
Qed.

Lemma processor_addLog_all (es : list (string * string)) (l : list string) :
  fold_left (fun logs e => addLog (fst e) (snd e) logs) es (firstn 50 l) =
    firstn 50 (rev (map (fun e => log_entry (fst e) (snd e)) es) ++ l).
Proof.
  revert l. induction es as [|e es IH]; intros l; [reflexivity|].
  cbn [fold_left map rev].
  rewrite addLog_is_first_fifty, IH, <- app_assoc. reflexivity.
Qed.

End ProcessorFacts.



(** X23. From a freshly reset buffer, whatever the attempts of a job meet,
    every buffer [playVideo] or its frame loop hands to the persistence
    endpoint is non-empty and numbered 0, 1, 2, ... in order, and the
    buffer left behind is numbered that way too. *)
Theorem saved_samples_are_whole_and_numbered (fuel : nat)
  (env : nat -> VideoProcessor.attempt) (captured : nat)
  (manifest : list VideoProcessor.videoItem) (it : VideoProcessor.videoItem)
  (retryCount : nat) (st st' : VideoProcessor.state) (tr : list VideoProcessor.effect) :
  VideoProcessor.currentFramesRef st = [] -> VideoProcessor.frameIdRef st = 0 ->
  VideoProcessor.playVideo fuel env captured manifest it retryCount st = Some (st', tr) ->
  Forall VideoProcessor.save_is_sound tr /\
  contiguous (VideoProcessor.currentFramesRef st') /\
  VideoProcessor.frameIdRef st' = length (VideoProcessor.currentFramesRef st').
Proof.
  intros Hf Hi Hrun.
  assert (Hok : VideoProcessor.buffer_ok st)
    by (split; rewrite Hf; [reflexivity|exact Hi]).
  destruct (ProcessorFacts.playVideo_sound _ _ _ _ _ _ Hok Hrun) as ([H1 H2] & H3 & _).
  auto.
Qed.

Lemma saved_samples_are_whole_and_numbered_witness :
  Forall VideoProcessor.save_is_sound
    (match VideoProcessor.playVideo 5
             (fun _ => VideoProcessor.PlayResolves
                         [VideoProcessor.Playing (VideoProcessor.Delivered no_face);
                          VideoProcessor.Stopped true true] true)
             0 [sample_item] sample_item 0 first_video with
     | Some (_, tr) => tr
     | None => []
     end).
Proof.
  apply (@saved_samples_are_whole_and_numbered 5
           (fun _ => VideoProcessor.PlayResolves
                       [VideoProcessor.Playing (VideoProcessor.Delivered no_face);
                        VideoProcessor.Stopped true true] true)
           0 [sample_item] sample_item 0 first_video
           (VideoProcessor.mkState
              [mkFrame 0 (VideoProcessor.extractKeypoints no_face)] 1 2)).
  - reflexivity.
  - reflexivity.
  - vm_compute. reflexivity.
Defined.

(** X24. The log panel of the video processor shows the newest fifty
    entries, newest first. *)
Theorem processor_log_keeps_newest_fifty (es : list (string * string)) :
  fold_left (fun logs e => VideoProcessor.addLog (fst e) (snd e) logs) es [] =
    firstn 50 (rev (map (fun e => VideoProcessor.log_entry (fst e) (snd e)) es)) /\
  length (fold_left (fun logs e => VideoProcessor.addLog (fst e) (snd e) logs) es [])
    <= 50.
Proof.
  pose proof (ProcessorFacts.processor_addLog_all es []) as H.
  simpl firstn in H at 1. rewrite app_nil_r in H. rewrite H.
  split; [reflexivity|]. rewrite length_firstn. lia.
Qed.

(** X25. With a non-empty manifest and the index inside it, the Skip and
    Prev buttons keep the index inside it: Skip stops at the last
    video, so it never ends the run, and Prev stops at the first. *)
Theorem manual_controls_stay_inside_the_manifest
  (manifest : list VideoProcessor.videoItem) (i : Z) :
  (0 <= i < Z.of_nat (length manifest))%Z ->
  (0 <= VideoProcessor.skipNext manifest i < Z.of_nat (length manifest))%Z /\
  (0 <= VideoProcessor.previous i < Z.of_nat (length manifest))%Z /\
  VideoProcessor.skipNext manifest (Z.of_nat (length manifest) - 1) =
    (Z.of_nat (length manifest) - 1)%Z /\
  VideoProcessor.previous 0 = 0%Z.
Proof.
  intros H. unfold VideoProcessor.skipNext, VideoProcessor.previous. lia.
Qed.

Lemma manual_controls_stay_inside_the_manifest_witness :
  (0 <= VideoProcessor.skipNext [sample_item] 0 < 1)%Z.
Proof.
  apply (@manual_controls_stay_inside_the_manifest [sample_item] 0). simpl. lia.
Defined.

(** ** Demo mode *)

(** X26. Whatever the gateway and the translation service answer, a demo
    sign is shown as recognized, exactly one request carrying no frames
    is made to the gateway, and the component ends not processing.  No
    error is shown exactly when both requests succeed; otherwise the
    translation on screen is the one that was there before, and the
    translation service is asked only if the gateway answered well. *)
Theorem demo_sign_is_shown_whatever_the_gateway_answers
  (sg : DeafUserDemoMode.demoSign) (g : DeafUserDemoMode.gateway)
  (t : DeafUserDemoMode.translation) (s : DeafUserDemoMode.state) :
  let '(s', tr) := DeafUserDemoMode.processSign sg g t s in
  DeafUserDemoMode.recognizedText s' = DeafUserDemoMode.text sg /\
  filter DeafUserDemoMode.is_gateway tr = [DeafUserDemoMode.GatewayProcess []] /\
  DeafUserDemoMode.isProcessing s' = false /\
  (DeafUserDemoMode.error s' = None <->
   g = DeafUserDemoMode.GatewayOk /\ exists a, t = DeafUserDemoMode.Translated a) /\
  (DeafUserDemoMode.error s' <> None ->
   DeafUserDemoMode.translatedText s' = DeafUserDemoMode.translatedText s) /\
  (In (DeafUserDemoMode.Translate (DeafUserDemoMode.text sg)) tr <->
   g = DeafUserDemoMode.GatewayOk).
Proof.
  unfold DeafUserDemoMode.processSign.
  destruct g as [|status|m]; [destruct t as [a|m]|..]; simpl;
    repeat split; auto; try discriminate;
    try (intros [H _]; discriminate H);
    try (intros [_ [a' H]]; discriminate H);
    try (intros [H|[H|[]]]; discriminate H);
    try (intros [H|[]]; discriminate H);
    try (intros H; contradiction);
    try (eexists; reflexivity).
Qed.

Lemma demo_sign_is_shown_whatever_the_gateway_answers_witness :
  DeafUserDemoMode.translatedText
    (fst (DeafUserDemoMode.processSign
            (DeafUserDemoMode.mkSign "hello" "Hello" "hello")
            (DeafUserDemoMode.GatewayStatus 500) (DeafUserDemoMode.Translated None)
            DeafUserDemoMode.initial)) =
    DeafUserDemoMode.translatedText DeafUserDemoMode.initial.
Proof.
  pose proof (demo_sign_is_shown_whatever_the_gateway_answers
                (DeafUserDemoMode.mkSign "hello" "Hello" "hello")
                (DeafUserDemoMode.GatewayStatus 500) (DeafUserDemoMode.Translated None)
                DeafUserDemoMode.initial) as H.
  simpl in H. destruct H as (_ & _ & _ & _ & H & _).
  simpl. apply H. discriminate.
Defined.

(** X27. A key does something in demo mode only if it is a digit 1 to 5 and
    no sign is being processed; it then processes the sign of that
    number.  Every other key, and every key pressed while processing,
    changes nothing and requests nothing. *)
Theorem demo_key_runs_at_most_one_sign (key : string)
  (g : DeafUserDemoMode.gateway) (t : DeafUserDemoMode.translation)
  (s : DeafUserDemoMode.state) :
  DeafUserDemoMode.handleKeyPress key g t s = (s, []) \/
  exists k sg,
    JS.parseInt key = Some k /\ (1 <= k <= 5)%Z /\
    DeafUserDemoMode.isProcessing s = false /\
    nth_error DeafUserDemoMode.demoSigns (Z.to_nat (k - 1)) = Some sg /\
    DeafUserDemoMode.handleKeyPress key g t s = DeafUserDemoMode.processSign sg g t s.
Proof.
  unfold DeafUserDemoMode.handleKeyPress.
  destruct (JS.parseInt key) as [k|]; [|now left].
  destruct ((0 <=? k - 1)%Z && (k - 1 <? Z.of_nat (length DeafUserDemoMode.demoSigns))%Z
            && negb (DeafUserDemoMode.isProcessing s))%bool eqn:Hk; [|now left].
  apply andb_true_iff in Hk. destruct Hk as [Hk Hp].
  apply andb_true_iff in Hk. destruct Hk as [Ha Hb].
  apply Z.leb_le in Ha. apply Z.ltb_lt in Hb. simpl in Hb.
  apply negb_true_iff in Hp.
  assert (Hc : (k = 1 \/ k = 2 \/ k = 3 \/ k = 4 \/ k = 5)%Z) by lia.
  right. exists k.
  destruct Hc as [-> | [-> | [-> | [-> | ->]]]];
    (eexists; repeat (split; [first [lia | reflexivity | assumption]|]); reflexivity).
Qed.
